(** * User repository: retrying query executor and CRUD facade

    A shallow embedding of [src/repositories/user.js]:
    - [queryWithRetry], the bounded retry loop around [pool.query];
    - the [UserRepository] methods [findById], [findAll], [create],
      [update] and [delete].

    JavaScript values are an inductive type, objects are finite maps from
    property names to values, and the effects of the module (pool calls,
    [setTimeout] delays, [console.error] lines, thrown values) are threaded
    explicitly through a trace-passing error monad. *)

From stdpp Require Import base strings list gmap pretty.
From Stdlib Require Import ZArith Lia.

Set Warnings "-register-all".
Local Open Scope Z_scope.

(** ** JavaScript values *)

Module Js.

(** Numbers are restricted to the integers and [NaN]; objects carry their
    own properties only.  [JError name message] is an object built by
    [new name(message)] for one of the built-in error constructors. *)
Inductive JsVal : Type :=
| JUndefined
| JNull
| JBool (b : bool)
| JNum (n : Z)
| JNaN
| JStr (s : string)
| JError (name message : string)
| JObj (fields : gmap string JsVal).

(** [ToBoolean]: what [!v], [a && b] and [a || b] test. *)
Definition truthy (v : JsVal) : bool :=
  match v with
  | JUndefined | JNull | JNaN => false
  | JBool b => b
  | JNum n => negb (n =? 0)
  | JStr s => negb (String.eqb s "")
  | JError _ _ | JObj _ => true
  end.

(** [v !== undefined] *)
Definition not_undefined (v : JsVal) : bool :=
  match v with
  | JUndefined => false
  | _ => true
  end.

(** [a || b] on values. *)
Definition js_or (a b : JsVal) : JsVal := if truthy a then a else b.

(** [v.k]: [None] stands for the TypeError of reading a property of
    [undefined] or [null]; primitives have no property named [k]. *)
Definition get_prop (v : JsVal) (k : string) : option JsVal :=
  match v with
  | JUndefined | JNull => None
  | JObj fields => Some (default JUndefined (fields !! k))
  | JError name message =>
      Some (if String.eqb k "name" then JStr name
            else if String.eqb k "message" then JStr message
            else JUndefined)
  | JBool _ | JNum _ | JNaN | JStr _ => Some JUndefined
  end.

(** The TypeError the engine throws for [v.k] with [v] undefined or null. *)
Definition type_error (v : JsVal) (k : string) : JsVal :=
  JError "TypeError"
    ("Cannot read properties of "
       +:+ (match v with JNull => "null" | _ => "undefined" end)
       +:+ " (reading '" +:+ k +:+ "')").

(** [arr[0]] *)
Definition index0 (arr : list JsVal) : JsVal :=
  match arr with
  | [] => JUndefined
  | x :: _ => x
  end.

End Js.
Export Js.

(** ** The pool and the observable effects *)

(** What [pool.query] resolves with: pg's result object, of which the
    module reads the [rows] array only. *)
Record QueryResult : Type := mkResult { rows : list JsVal }.

(** One settled [pool.query] promise. *)
Inductive Outcome : Type :=
| Resolved (result : QueryResult)
| Rejected (error : JsVal).

(** Everything the module does to the outside, in program order. *)
Inductive Event : Type :=
| EvQuery (sql : string) (params : list JsVal)
| EvSleep (ms : Z)
| EvLog (label : string) (error : JsVal).

(** The pool is an external collaborator: its answer to a call may depend
    on everything that happened before and on the request. *)
Definition Pool : Type := list Event -> string -> list JsVal -> Outcome.

(** How a function body ends. *)
Inductive Completion (A : Type) : Type :=
| Return (a : A)
| Throw (e : JsVal).
Arguments Return {A} a.
Arguments Throw {A} e.

(** Computations: from the trace so far to a completion and the extended
    trace. *)
Definition M (A : Type) : Type := list Event -> Completion A * list Event.

Definition ret {A} (a : A) : M A := fun t => (Return a, t).

Definition throw {A} (e : JsVal) : M A := fun t => (Throw e, t).

Definition bind {A B} (m : M A) (k : A -> M B) : M B :=
  fun t =>
    match m t with
    | (Return a, t') => k a t'
    | (Throw e, t') => (Throw e, t')
    end.

(** [try { m } catch (error) { handler error }] *)
Definition try_catch {A} (m : M A) (handler : JsVal -> M A) : M A :=
  fun t =>
    match m t with
    | (Return a, t') => (Return a, t')
    | (Throw e, t') => handler e t'
    end.

Declare Scope js_scope.
Delimit Scope js_scope with js.
Notation "x <- m ;; k" := (bind m (fun x => k))
  (at level 100, m at next level, right associativity) : js_scope.
Notation "m ;;; k" := (bind m (fun _ => k))
  (at level 100, right associativity) : js_scope.
Local Open Scope js_scope.

Definition emit (ev : Event) : M unit := fun t => (Return tt, t ++ [ev]).

(** [await new Promise(resolve => setTimeout(resolve, ms))] *)
Definition sleep (ms : Z) : M unit := emit (EvSleep ms).

(** [console.error(label, error)] *)
Definition console_error (label : string) (error : JsVal) : M unit :=
  emit (EvLog label error).

(** [v.k] as a computation. *)
Definition read_prop (v : JsVal) (k : string) : M JsVal :=
  match get_prop v k with
  | Some x => ret x
  | None => throw (type_error v k)
  end.

(** [result.rows], where [result] is what [queryWithRetry] returned:
    a result object or [undefined]. *)
Definition read_rows (result : option QueryResult) : M (list JsVal) :=
  match result with
  | Some r => ret (rows r)
  | None => throw (type_error JUndefined "rows")
  end.

(** How one turn of a [for] body ends: the function returns, or control
    reaches the increment. *)
Inductive Turn (A : Type) : Type :=
| Returned (a : A)
| NextTurn.
Arguments Returned {A} a.
Arguments NextTurn {A}.

Section Repository.

Variable pool : Pool.

(** [await pool.query(query, params)] *)
Definition pool_query (query : string) (params : list JsVal) : M QueryResult :=
  fun t =>
    match pool t query params with
    | Resolved r => (Return r, t ++ [EvQuery query params])
    | Rejected e => (Throw e, t ++ [EvQuery query params])
    end.

(** The body of the loop of [queryWithRetry] at index [i]. *)
Definition queryWithRetry_body (query : string) (params : list JsVal)
    (maxRetries i : Z) : M (Turn (option QueryResult)) :=
  try_catch
    (r <- pool_query query params ;; ret (Returned (Some r)))
    (fun error =>
       if i =? maxRetries - 1 then throw error
       else sleep (1000 * (i + 1)) ;;; ret NextTurn).

(** [for (let i = ...; i < maxRetries; i++) body]; falling out of the loop
    the function returns [undefined].  [fuel] bounds the number of turns;
    [Z.to_nat (maxRetries - i)] is always enough
    (see [queryWithRetry_loop_fuel]). *)
Fixpoint queryWithRetry_loop (fuel : nat) (query : string)
    (params : list JsVal) (maxRetries i : Z) : M (option QueryResult) :=
  match fuel with
  | O => ret None
  | S fuel' =>
      if i <? maxRetries then
        turn <- queryWithRetry_body query params maxRetries i ;;
        match turn with
        | Returned r => ret r
        | NextTurn =>
            queryWithRetry_loop fuel' query params maxRetries (i + 1)
        end
      else ret None
  end.

(** [queryWithRetry(query, params, maxRetries = 3)]; [None] is an omitted
    (or [undefined]) third argument. *)
Definition queryWithRetry (query : string) (params : list JsVal)
    (maxRetries : option Z) : M (option QueryResult) :=
  let maxRetries := default 3 maxRetries in
  queryWithRetry_loop (Z.to_nat maxRetries) query params maxRetries 0.

(** *** UserRepository *)

Definition findById (userId : JsVal) : M JsVal :=
  try_catch
    (let query := "SELECT * FROM users WHERE id = $1" in
     result <- queryWithRetry query [userId] None ;;
     rs <- read_rows result ;;
     ret (js_or (index0 rs) JNull))
    (fun error =>
       console_error "Error fetching user by ID:" error ;;; throw error).

Definition findAll : M (list JsVal) :=
  try_catch
    (let query := "SELECT * FROM users" in
     result <- queryWithRetry query [] None ;;
     read_rows result)
    (fun error =>
       console_error "Error fetching all users:" error ;;; throw error).

(** [!userData || !userData.name || !userData.email] *)
Definition create_rejects (userData : JsVal) : M bool :=
  if negb (truthy userData) then ret true
  else
    name <- read_prop userData "name" ;;
    if negb (truthy name) then ret true
    else
      email <- read_prop userData "email" ;;
      ret (negb (truthy email)).

Definition create_error : JsVal :=
  JError "Error" "User data must include name and email".

Definition create (userData : JsVal) : M JsVal :=
  rejects <- create_rejects userData ;;
  if (rejects : bool) then throw create_error
  else
    try_catch
      (let query :=
         "INSERT INTO users (name, email) VALUES ($1, $2) RETURNING *" in
       name <- read_prop userData "name" ;;
       email <- read_prop userData "email" ;;
       result <- queryWithRetry query [name; email] None ;;
       rs <- read_rows result ;;
       ret (index0 rs))
      (fun error =>
         console_error "Error creating user:" error ;;; throw error).

(** [!userData || (!userData.name && !userData.email)] *)
Definition update_rejects (userData : JsVal) : M bool :=
  if negb (truthy userData) then ret true
  else
    name <- read_prop userData "name" ;;
    if negb (truthy name) then
      email <- read_prop userData "email" ;;
      ret (negb (truthy email))
    else ret false.

Definition update_error : JsVal :=
  JError "Error" "User data must include at least name or email to update".

(** The locals [updates], [values] and [paramCount] of [update]. *)
Record Builder : Type := mkBuilder {
  updates : list string;
  values : list JsVal;
  paramCount : Z
}.

(** [updates.push(`col = $${paramCount++}`); values.push(v)] *)
Definition push_column (col : string) (v : JsVal) (b : Builder) : Builder :=
  {| updates := updates b ++ [col +:+ " = $" +:+ pretty (paramCount b)];
     values := values b ++ [v];
     paramCount := paramCount b + 1 |}.

(** The locals after [values.push(userId)]: the first statements of the
    [try] block of [update]. *)
Definition update_locals (userId userData : JsVal) : M Builder :=
  let b := {| updates := []; values := []; paramCount := 1 |} in
  name <- read_prop userData "name" ;;
  let b := if not_undefined name then push_column "name" name b else b in
  email <- read_prop userData "email" ;;
  let b := if not_undefined email then push_column "email" email b else b in
  ret {| updates := updates b;
         values := values b ++ [userId];
         paramCount := paramCount b |}.

(** The text of the UPDATE statement, from the locals. *)
Definition update_query (b : Builder) : string :=
  "UPDATE users SET " +:+ String.concat ", " (updates b)
    +:+ " WHERE id = $" +:+ pretty (paramCount b) +:+ " RETURNING *".

Definition update (userId userData : JsVal) : M JsVal :=
  rejects <- update_rejects userData ;;
  if (rejects : bool) then throw update_error
  else
    try_catch
      (b <- update_locals userId userData ;;
       let query := update_query b in
       result <- queryWithRetry query (values b) None ;;
       rs <- read_rows result ;;
       ret (index0 rs))
      (fun error =>
         console_error "Error updating user:" error ;;; throw error).

Definition delete (userId : JsVal) : M JsVal :=
  try_catch
    (let query := "DELETE FROM users WHERE id = $1 RETURNING *" in
     result <- queryWithRetry query [userId] None ;;
     rs <- read_rows result ;;
     ret (index0 rs))
    (fun error =>
       console_error "Error deleting user:" error ;;; throw error).

End Repository.

(** ** Vocabulary of the statements *)

(** What a run of [queryWithRetry] adds to the trace while its first [k]
    attempts fail and are not the last: each call of the pool followed by
    the back-off delay of its index. *)
Definition backoff_trace (query : string) (params : list JsVal) (k : nat)
    : list Event :=
  flat_map
    (fun i => [EvQuery query params; EvSleep (1000 * (Z.of_nat i + 1))])
    (seq 0 k).

(** The outcome of attempt [k] (0-based) of a run of the executor started
    at trace [t], the attempts before it having failed. *)
Definition attempt (pool : Pool) (t : list Event) (query : string)
    (params : list JsVal) (k : nat) : Outcome :=
  pool (t ++ backoff_trace query params k) query params.

Definition rejected (o : Outcome) : Prop := exists e, o = Rejected e.

(** The first [n] attempts all fail. *)
Definition all_rejected (pool : Pool) (t : list Event) (query : string)
    (params : list JsVal) (n : nat) : Prop :=
  forall j, (j < n)%nat -> rejected (attempt pool t query params j).

(** The requests a trace sent to the pool, in order, and their number. *)
Definition queries (t : list Event) : list (string * list JsVal) :=
  omap (fun ev => match ev with EvQuery sql ps => Some (sql, ps) | _ => None end) t.

Definition pool_calls (t : list Event) : nat := length (queries t).

(** The delays of a trace, in order. *)
Definition sleeps (t : list Event) : list Z :=
  omap (fun ev => match ev with EvSleep ms => Some ms | _ => None end) t.

(** The value of [userData.k], with no property on [undefined] and [null]. *)
Definition field (userData : JsVal) (k : string) : JsVal :=
  default JUndefined (get_prop userData k).

(** A field that is absent or the empty string. *)
Definition missing_or_empty (v : JsVal) : Prop :=
  v = JUndefined \/ v = JStr "".

(** The columns an update writes: the supplied ones, [name] first. *)
Definition supplied_columns (userData : JsVal) : list (string * JsVal) :=
  filter (fun c => not_undefined c.2 = true)
    [("name", field userData "name"); ("email", field userData "email")].

(** [col = $i] for each column, the indices being 1, 2, ... in order. *)
Definition assignments (cols : list (string * JsVal)) : list string :=
  zip_with (fun c i => c.1 +:+ " = $" +:+ pretty (Z.of_nat i))
    cols (seq 1 (length cols)).

(** [update]'s guard lets the data through: one of the fields is truthy. *)
Definition update_accepts (userData : JsVal) : bool :=
  truthy (field userData "name") || truthy (field userData "email").

(** [create]'s guard lets the data through: both fields are truthy. *)
Definition create_accepts (userData : JsVal) : bool :=
  truthy (field userData "name") && truthy (field userData "email").

(** *** Pools used in the examples *)

(** A store with no row: every statement succeeds and returns nothing. *)
Definition empty_store : Pool := fun _ _ _ => Resolved (mkResult []).

(** A pool that is down: call number [n] fails with an error naming [n]. *)
Definition down_pool : Pool :=
  fun t _ _ => Rejected (JError "Error" ("timeout " +:+ pretty (pool_calls t))).

(** A pool whose first two calls fail and whose later calls return [row]. *)
Definition flaky_pool (row : JsVal) : Pool :=
  fun t _ _ =>
    if (pool_calls t <? 2)%nat
    then Rejected (JError "Error" "connection reset")
    else Resolved (mkResult [row]).

Definition alice : JsVal :=
  JObj (<["name" := JStr "Alice"]> (<["email" := JStr "alice@x.com"]> ∅)).

(** [{name: "A"}], [{name: ""}] and [{name: "", email: "b@x.com"}]. *)
Definition only_name : JsVal := JObj {["name" := JStr "A"]}.

Definition blank_name : JsVal := JObj {["name" := JStr ""]}.

Definition blank_name_with_email : JsVal :=
  JObj (<["name" := JStr ""]> (<["email" := JStr "b@x.com"]> ∅)).

(** What a trace wrote to [console.error], in order. *)
Definition logs (t : list Event) : list (string * JsVal) :=
  omap (fun ev => match ev with EvLog label e => Some (label, e) | _ => None end) t.

(** The time a trace spends in back-off delays, in milliseconds. *)
Definition total_delay (t : list Event) : Z := foldr Z.add 0 (sleeps t).

(** ** [src/pages/Cart.js]

    The file holds a second retry helper, [retryWithBackoff], written
    around an arbitrary callback, and an earlier text of the repository
    module whose [queryWithRetry], [findAll] and [delete] are those of
    [src/repositories/user.js] word for word. *)

Module Cart.

(** [s.includes(needle)] on strings. *)
Fixpoint includes (s needle : string) : bool :=
  String.prefix needle s
  || match s with
     | EmptyString => false
     | String _ s' => includes s' needle
     end.

(** [error.message.includes(needle)]: its boolean, or the TypeError thrown
    on the way when [error] has no properties or [error.message] is not a
    string. *)
Definition message_includes (error : JsVal) (needle : string) : JsVal + bool :=
  match get_prop error "message" with
  | None => inl (type_error error "message")
  | Some (JStr s) => inr (includes s needle)
  | Some JUndefined => inl (type_error JUndefined "includes")
  | Some JNull => inl (type_error JNull "includes")
  | Some _ =>
      inl (JError "TypeError" "error.message.includes is not a function")
  end.

(** A delay handed to [setTimeout]: a number of milliseconds, or
    [Infinity]. *)
Inductive Delay : Type :=
| Millis (ms : Z)
| Infinity.

(** [Math.pow(2, i) * 1000] at a loop index [i] (an integer, [0 <= i]).
    In double arithmetic the product is exact up to [i = 1014], where it
    is [125 * 2 ^ 1017], and overflows to [Infinity] from [i = 1015]. *)
Definition backoff_ms (i : Z) : Delay :=
  if i <=? 1014 then Millis (2 ^ i * 1000) else Infinity.

(** What [retryWithBackoff] does to the outside, in program order:
    [FnCall] is a call of [fn], [FnSleep d] a call of [setTimeout] with
    delay [d] that the run awaits. *)
Inductive FnEvent : Type :=
| FnCall
| FnSleep (ms : Delay).

(** One settled call of the callback. *)
Inductive FnOutcome : Type :=
| Fulfilled (v : JsVal)
| Failed (error : JsVal).

(** The callback is the caller's: what a call gives may depend on
    everything that happened before. *)
Definition Fn : Type := list FnEvent -> FnOutcome.

Section Retry.

Variable fn : Fn.

(** The body of the loop of [retryWithBackoff] at index [i]. *)
Definition retryWithBackoff_body (maxRetries i : Z) (t : list FnEvent)
    : Completion (Turn JsVal) * list FnEvent :=
  let t1 := t ++ [FnCall] in
  match fn t with
  | Fulfilled v => (Return (Returned v), t1)
  | Failed error =>
      match message_includes error "rate limit" with
      | inl type_err => (Throw type_err, t1)
      | inr rate_limited =>
          if rate_limited && (i <? maxRetries - 1)
          then (Return NextTurn, t1 ++ [FnSleep (backoff_ms i)])
          else (Throw error, t1)
      end
  end.

(** The loop; after it the function returns [undefined].  [fuel] bounds the
    number of turns, [Z.to_nat (maxRetries - i)] being enough. *)
Fixpoint retryWithBackoff_loop (fuel : nat) (maxRetries i : Z)
    (t : list FnEvent) : Completion JsVal * list FnEvent :=
  match fuel with
  | O => (Return JUndefined, t)
  | S fuel' =>
      if i <? maxRetries then
        match retryWithBackoff_body maxRetries i t with
        | (Return (Returned v), t') => (Return v, t')
        | (Return NextTurn, t') =>
            retryWithBackoff_loop fuel' maxRetries (i + 1) t'
        | (Throw e, t') => (Throw e, t')
        end
      else (Return JUndefined, t)
  end.

(** [retryWithBackoff(fn, maxRetries = 3)] *)
Definition retryWithBackoff (maxRetries : option Z) (t : list FnEvent)
    : Completion JsVal * list FnEvent :=
  let maxRetries := default 3 maxRetries in
  retryWithBackoff_loop (Z.to_nat maxRetries) maxRetries 0 t.

End Retry.

(** What a run adds to the trace while its first [k] attempts fail with a
    rate-limit error and are not the last. *)
Definition backoff_trace (k : nat) : list FnEvent :=
  flat_map (fun i => [FnCall; FnSleep (backoff_ms (Z.of_nat i))]) (seq 0 k).

(** The outcome of attempt [k] of a run started at [t]. *)
Definition attempt (fn : Fn) (t : list FnEvent) (k : nat) : FnOutcome :=
  fn (t ++ backoff_trace k).

(** Attempt [k] fails with an error whose message contains "rate limit". *)
Definition rate_limited (o : FnOutcome) : Prop :=
  exists e, o = Failed e /\ message_includes e "rate limit" = inr true.

Definition calls (t : list FnEvent) : nat :=
  length (omap (fun ev => match ev with FnCall => Some tt | _ => None end) t).

Definition delays (t : list FnEvent) : list Delay :=
  omap (fun ev => match ev with FnSleep ms => Some ms | _ => None end) t.

(** A callback that always fails with the same error. *)
Definition failing (error : JsVal) : Fn := fun _ => Failed error.

(** A callback whose first call fails with [error] and whose later calls
    give [v]. *)
Definition flaky (error v : JsVal) : Fn :=
  fun t => match t with [] => Failed error | _ => Fulfilled v end.

Definition rate_limit_error : JsVal := JError "Error" "API rate limit exceeded".

(** The earlier text of the repository. *)
Section Repository.

Variable pool : Pool.

Definition timeout_error : JsVal := JError "Error" "Database connection timeout".

Definition findById (userId : JsVal) : M JsVal :=
  try_catch
    (let query := "SELECT * FROM users WHERE id = $1" in
     result <- queryWithRetry pool query [userId] None ;;
     rs <- read_rows result ;;
     ret (js_or (index0 rs) JNull))
    (fun error =>
       console_error "Error fetching user by ID:" error ;;;
       throw timeout_error).

Definition create (userData : JsVal) : M JsVal :=
  try_catch
    (let query :=
       "INSERT INTO users (name, email) VALUES ($1, $2) RETURNING *" in
     name <- read_prop userData "name" ;;
     email <- read_prop userData "email" ;;
     result <- queryWithRetry pool query [name; email] None ;;
     rs <- read_rows result ;;
     ret (index0 rs))
    (fun error =>
       console_error "Error creating user:" error ;;; throw error).

Definition update (userId userData : JsVal) : M JsVal :=
  try_catch
    (let query :=
       "UPDATE users SET name = $1, email = $2 WHERE id = $3 RETURNING *" in
     name <- read_prop userData "name" ;;
     email <- read_prop userData "email" ;;
     result <- queryWithRetry pool query [name; email; userId] None ;;
     rs <- read_rows result ;;
     ret (index0 rs))
    (fun error =>
       console_error "Error updating user:" error ;;; throw error).

End Repository.

End Cart.

(** ** The monad and the retry loop *)

Section Executor.

Variable pool : Pool.
Variables (query : string) (params : list JsVal).

Lemma backoff_trace_S k :
  backoff_trace query params (S k) =
  backoff_trace query params k
    ++ [EvQuery query params; EvSleep (1000 * (Z.of_nat k + 1))].
Proof.
  unfold backoff_trace. by rewrite seq_S, flat_map_app.
Qed.

Lemma pool_calls_app t1 t2 : pool_calls (t1 ++ t2) = (pool_calls t1 + pool_calls t2)%nat.
Proof. unfold pool_calls, queries. by rewrite omap_app, length_app. Qed.

Lemma pool_calls_backoff k : pool_calls (backoff_trace query params k) = k.
Proof.
  induction k as [|k IH]; [done|].
  rewrite backoff_trace_S, pool_calls_app, IH. cbn. lia.
Qed.

Lemma sleeps_app t1 t2 : sleeps (t1 ++ t2) = sleeps t1 ++ sleeps t2.
Proof. unfold sleeps. apply omap_app. Qed.

Lemma sleeps_backoff k :
  sleeps (backoff_trace query params k) =
  map (fun i => 1000 * (Z.of_nat i + 1)) (seq 0 k).
Proof.
  induction k as [|k IH]; [done|].
  rewrite backoff_trace_S, sleeps_app, IH, seq_S, map_app. done.
Qed.

(** One turn of the loop, by the outcome of the pool call. *)
Lemma body_resolved maxRetries i t r :
  pool t query params = Resolved r ->
  queryWithRetry_body pool query params maxRetries i t =
  (Return (Returned (Some r)), t ++ [EvQuery query params]).
Proof.
  intros H. unfold queryWithRetry_body, try_catch, bind, pool_query.
  by rewrite H.
Qed.

Lemma body_rejected_last maxRetries i t e :
  pool t query params = Rejected e ->
  i = maxRetries - 1 ->
  queryWithRetry_body pool query params maxRetries i t =
  (Throw e, t ++ [EvQuery query params]).
Proof.
  intros H ->. unfold queryWithRetry_body, try_catch, bind, pool_query.
  by rewrite H, Z.eqb_refl.
Qed.

Lemma body_rejected_retry maxRetries i t e :
  pool t query params = Rejected e ->
  i <> maxRetries - 1 ->
  queryWithRetry_body pool query params maxRetries i t =
  (Return NextTurn,
   t ++ [EvQuery query params; EvSleep (1000 * (i + 1))]).
Proof.
  intros H Hi. unfold queryWithRetry_body, try_catch, bind, pool_query.
  rewrite H. apply Z.eqb_neq in Hi. rewrite Hi.
  unfold sleep, emit, ret. by rewrite <- app_assoc.
Qed.

(** The fuel of the loop is never the reason it stops: any two amounts
    that cover the remaining turns give the same run. *)
Lemma queryWithRetry_loop_fuel fuel1 fuel2 maxRetries i t :
  (Z.to_nat (maxRetries - i) <= fuel1)%nat ->
  (Z.to_nat (maxRetries - i) <= fuel2)%nat ->
  queryWithRetry_loop pool fuel1 query params maxRetries i t =
  queryWithRetry_loop pool fuel2 query params maxRetries i t.
Proof.
  revert fuel2 i t.
  induction fuel1 as [|fuel1 IH]; intros fuel2 i t H1 H2.
  - destruct fuel2 as [|fuel2]; [done|]. simpl.
    destruct (Z.ltb_spec i maxRetries); [lia | done].
  - destruct fuel2 as [|fuel2]; simpl.
    + destruct (Z.ltb_spec i maxRetries); [lia | done].
    + destruct (Z.ltb_spec i maxRetries); [|done].
      unfold bind.
      destruct (queryWithRetry_body pool query params maxRetries i t)
        as [[[r|]|e] t']; try done.
      apply IH; lia.
Qed.

(** The fuel [queryWithRetry] starts with is enough, and more changes
    nothing. *)
Lemma queryWithRetry_enough_fuel fuel maxRetries t :
  (Z.to_nat maxRetries <= fuel)%nat ->
  queryWithRetry_loop pool fuel query params maxRetries 0 t =
  queryWithRetry pool query params (Some maxRetries) t.
Proof.
  intros H. unfold queryWithRetry. simpl default.
  apply queryWithRetry_loop_fuel; lia.
Qed.

(** A failed attempt that is not the last hands over to the next index. *)
Lemma queryWithRetry_loop_retry fuel maxRetries i t e :
  i < maxRetries - 1 ->
  pool t query params = Rejected e ->
  queryWithRetry_loop pool (S fuel) query params maxRetries i t =
  queryWithRetry_loop pool fuel query params maxRetries (i + 1)
    (t ++ [EvQuery query params; EvSleep (1000 * (i + 1))]).
Proof.
  intros Hi H. simpl.
  destruct (Z.ltb_spec i maxRetries); [|lia].
  unfold bind. by rewrite (body_rejected_retry _ _ _ e) by (done || lia).
Qed.

(** After [k] failed attempts, none of them the last, the loop stands at
    index [k] with the back-off trace behind it. *)
Lemma queryWithRetry_loop_skip k fuel maxRetries t :
  Z.of_nat k < maxRetries ->
  all_rejected pool t query params k ->
  queryWithRetry_loop pool (k + fuel) query params maxRetries 0 t =
  queryWithRetry_loop pool fuel query params maxRetries (Z.of_nat k)
    (t ++ backoff_trace query params k).
Proof.
  revert fuel. induction k as [|k IH]; intros fuel Hk Hrej.
  - simpl. unfold backoff_trace. simpl. by rewrite app_nil_r.
  - replace (S k + fuel)%nat with (k + S fuel)%nat by lia.
    rewrite IH; [|lia|intros j Hj; apply Hrej; lia].
    destruct (Hrej k) as [e He]; [lia|]. unfold attempt in He.
    rewrite (queryWithRetry_loop_retry _ _ _ _ e) by (done || lia).
    rewrite backoff_trace_S, <- app_assoc.
    by replace (Z.of_nat k + 1) with (Z.of_nat (S k)) by lia.
Qed.

(** The run of the executor whose first success is attempt [k]. *)
Lemma queryWithRetry_success maxRetries k t r :
  Z.of_nat k < maxRetries ->
  all_rejected pool t query params k ->
  attempt pool t query params k = Resolved r ->
  queryWithRetry pool query params (Some maxRetries) t =
  (Return (Some r),
   t ++ backoff_trace query params k ++ [EvQuery query params]).
Proof.
  intros Hk Hrej Hok. unfold queryWithRetry. simpl default.
  replace (Z.to_nat maxRetries)
    with (k + S (Z.to_nat maxRetries - k - 1))%nat by lia.
  rewrite queryWithRetry_loop_skip by done. simpl.
  destruct (Z.ltb_spec (Z.of_nat k) maxRetries); [|lia].
  unfold bind. rewrite (body_resolved _ _ _ r) by done.
  by rewrite <- app_assoc.
Qed.

(** The run of the executor all of whose attempts fail. *)
Lemma queryWithRetry_exhausted maxRetries n t e :
  maxRetries = Z.of_nat (S n) ->
  all_rejected pool t query params n ->
  attempt pool t query params n = Rejected e ->
  queryWithRetry pool query params (Some maxRetries) t =
  (Throw e, t ++ backoff_trace query params n ++ [EvQuery query params]).
Proof.
  intros Hm Hrej Hlast. unfold queryWithRetry. simpl default.
  replace (Z.to_nat maxRetries) with (n + 1)%nat by lia.
  rewrite queryWithRetry_loop_skip by (done || lia). simpl.
  destruct (Z.ltb_spec (Z.of_nat n) maxRetries); [|lia].
  unfold bind. rewrite (body_rejected_last _ _ _ e) by (done || lia).
  by rewrite <- app_assoc.
Qed.

(** A limit that is not positive: the condition of the loop is false at
    once. *)
Lemma queryWithRetry_no_turn maxRetries t :
  maxRetries <= 0 ->
  queryWithRetry pool query params (Some maxRetries) t = (Return None, t).
Proof.
  intros Hm. unfold queryWithRetry. simpl default.
  destruct (Z.to_nat maxRetries); simpl; [done|].
  by destruct (Z.ltb_spec 0 maxRetries); [lia|].
Qed.

(** Among the first [n] attempts either one succeeds, the ones before it
    having failed, or all fail. *)
Lemma attempts_cases t n :
  (exists k r, (k < n)%nat /\ all_rejected pool t query params k /\
               attempt pool t query params k = Resolved r)
  \/ all_rejected pool t query params n.
Proof.
  induction n as [|n [IH|IH]].
  - right. intros j Hj. lia.
  - left. destruct IH as (k & r & Hk & Hrej & Hok).
    exists k, r. split; [lia|done].
  - destruct (attempt pool t query params n) as [r|e] eqn:Hn.
    + left. exists n, r. split; [lia|done].
    + right. intros j Hj.
      destruct (decide (j = n)) as [->|Hne]; [by exists e | apply IH; lia].
Qed.

End Executor.

Section ExecutorRuns.

Variable pool : Pool.
Variables (query : string) (params : list JsVal).

(** The three ways a turn of the loop can go. *)
Lemma queryWithRetry_body_cases maxRetries i t :
  (exists r, queryWithRetry_body pool query params maxRetries i t =
             (Return (Returned (Some r)), t ++ [EvQuery query params]))
  \/ (exists e, i = maxRetries - 1 /\
                queryWithRetry_body pool query params maxRetries i t =
                (Throw e, t ++ [EvQuery query params]))
  \/ (i <> maxRetries - 1 /\
      queryWithRetry_body pool query params maxRetries i t =
      (Return NextTurn,
       t ++ [EvQuery query params; EvSleep (1000 * (i + 1))])).
Proof.
  destruct (pool t query params) as [r|e] eqn:Hp.
  - left. exists r. by apply body_resolved.
  - right. destruct (decide (i = maxRetries - 1)) as [Hi|Hi].
    + left. exists e. split; [done|]. by apply body_rejected_last.
    + right. split; [done|]. by apply (body_rejected_retry _ _ _ _ _ _ e).
Qed.

(** A run of the loop only ever appends to the trace. *)
Lemma queryWithRetry_loop_extends fuel maxRetries i t :
  exists rest,
    (queryWithRetry_loop pool fuel query params maxRetries i t).2 = t ++ rest.
Proof.
  revert i t. induction fuel as [|fuel IH]; intros i t; simpl.
  - exists []. by rewrite app_nil_r.
  - destruct (i <? maxRetries); [|exists []; by rewrite app_nil_r].
    unfold bind.
    destruct (queryWithRetry_body_cases maxRetries i t)
      as [[r ->]|[(e & _ & ->)|[_ ->]]]; simpl; [by eexists..|].
    destruct (IH (i + 1) (t ++ [EvQuery query params;
                                EvSleep (1000 * (i + 1))])) as [rest ->].
    eexists. by rewrite <- app_assoc.
Qed.

(** A turn of the loop starts with a call of the pool. *)
Lemma queryWithRetry_loop_calls fuel maxRetries i t :
  i < maxRetries ->
  exists c rest,
    queryWithRetry_loop pool (S fuel) query params maxRetries i t =
    (c, t ++ EvQuery query params :: rest).
Proof.
  intros Hi. simpl. destruct (Z.ltb_spec i maxRetries); [|lia].
  unfold bind.
  destruct (queryWithRetry_body_cases maxRetries i t)
    as [[r ->]|[(e & _ & ->)|[_ ->]]]; [by eexists _, []..|].
  destruct (queryWithRetry_loop_extends fuel maxRetries (i + 1)
              (t ++ [EvQuery query params; EvSleep (1000 * (i + 1))]))
    as [rest Hrest].
  destruct (queryWithRetry_loop pool fuel query params maxRetries (i + 1) _)
    as [c t'] eqn:Hrun. simpl in Hrest. subst t'.
  exists c, (EvSleep (1000 * (i + 1)) :: rest).
  by rewrite <- app_assoc.
Qed.

(** With turns left, the loop ends in a result or in an error, never by
    falling through. *)
Lemma queryWithRetry_loop_settles fuel maxRetries i t :
  i < maxRetries ->
  (Z.to_nat (maxRetries - i) <= fuel)%nat ->
  (queryWithRetry_loop pool fuel query params maxRetries i t).1 <> Return None.
Proof.
  revert i t. induction fuel as [|fuel IH]; intros i t Hi Hfuel; [lia|].
  simpl. destruct (Z.ltb_spec i maxRetries); [|lia].
  unfold bind.
  destruct (queryWithRetry_body_cases maxRetries i t)
    as [[r ->]|[(e & _ & ->)|[Hne ->]]]; [done..|].
  apply IH; lia.
Qed.

End ExecutorRuns.

(** ** The retrying executor *)

(** C1: with the default limit of 3, [queryWithRetry] returns the result of
    the first attempt that succeeds, having called the pool once per attempt
    up to that one and no more; when all 3 attempts fail it has called the
    pool exactly 3 times and throws the error of the third attempt itself. *)
Theorem queryWithRetry_first_success_or_final_error
    (pool : Pool) (query : string) (params : list JsVal) (t : list Event) :
  (forall (k : nat) (r : QueryResult),
      (k < 3)%nat ->
      all_rejected pool t query params k ->
      attempt pool t query params k = Resolved r ->
      let t' := t ++ backoff_trace query params k ++ [EvQuery query params] in
      queryWithRetry pool query params None t = (Return (Some r), t')
      /\ pool_calls t' = (pool_calls t + (k + 1))%nat)
  /\
  (forall e : JsVal,
      all_rejected pool t query params 3 ->
      attempt pool t query params 2 = Rejected e ->
      let t' := t ++ backoff_trace query params 2 ++ [EvQuery query params] in
      queryWithRetry pool query params None t = (Throw e, t')
      /\ pool_calls t' = (pool_calls t + 3)%nat).
Proof.
  split.
  - intros k r Hk Hrej Hok t'. split.
    + apply (queryWithRetry_success pool query params 3 k); [lia|done..].
    + unfold t'. rewrite !pool_calls_app, pool_calls_backoff. cbn. lia.
  - intros e Hrej Hlast t'. split.
    + apply (queryWithRetry_exhausted pool query params 3 2); [done| |done].
      intros j Hj. apply Hrej. lia.
    + unfold t'. rewrite !pool_calls_app, pool_calls_backoff. cbn. lia.
Qed.

(** C7: in a run with limit [maxRetries], when attempt [i] fails and is not
    the last one, the call of the pool is followed by a delay of
    [1000 * (i + 1)] ms and then by the next call; a run with the default
    limit whose 3 attempts all fail is call, 1000 ms, call, 2000 ms, call,
    with no delay after the last call. *)
Theorem queryWithRetry_backoff_delays
    (pool : Pool) (query : string) (params : list JsVal) (t : list Event) :
  (forall (maxRetries : Z) (i : nat),
      Z.of_nat i < maxRetries - 1 ->
      all_rejected pool t query params (S i) ->
      exists c rest,
        queryWithRetry pool query params (Some maxRetries) t =
        (c, (t ++ backoff_trace query params i)
              ++ [EvQuery query params;
                  EvSleep (1000 * (Z.of_nat i + 1));
                  EvQuery query params]
              ++ rest))
  /\
  (all_rejected pool t query params 3 ->
   exists e t',
     queryWithRetry pool query params None t = (Throw e, t')
     /\ t' = t ++ [EvQuery query params; EvSleep 1000;
                   EvQuery query params; EvSleep 2000;
                   EvQuery query params]
     /\ sleeps t' = sleeps t ++ [1000; 2000]).
Proof.
  split.
  - intros maxRetries i Hi Hrej. unfold queryWithRetry. simpl default.
    replace (Z.to_nat maxRetries)
      with (S i + S (Z.to_nat maxRetries - S i - 1))%nat by lia.
    rewrite queryWithRetry_loop_skip by (done || lia).
    destruct (queryWithRetry_loop_calls pool query params
                (Z.to_nat maxRetries - S i - 1) maxRetries (Z.of_nat (S i))
                (t ++ backoff_trace query params (S i)))
      as (c & rest & Hrun); [lia|].
    exists c, rest. rewrite Hrun, backoff_trace_S. f_equal.
    by rewrite <- !app_assoc.
  - intros Hrej. destruct (Hrej 2%nat) as [e He]; [lia|].
    eexists e, _. split; [|split; [reflexivity|]].
    + apply (queryWithRetry_exhausted pool query params 3 2); [done| |done].
      intros j Hj. apply Hrej. lia.
    + by rewrite sleeps_app.
Qed.

(** C9: called with a limit that is zero or negative, [queryWithRetry]
    returns [undefined] without calling the pool; with a limit of at least 1
    it never does, it ends with a result of the pool or with an error. *)
Theorem queryWithRetry_nonpositive_limit
    (pool : Pool) (query : string) (params : list JsVal) (t : list Event)
    (maxRetries : Z) :
  (maxRetries <= 0 ->
   queryWithRetry pool query params (Some maxRetries) t = (Return None, t))
  /\
  (1 <= maxRetries ->
   (queryWithRetry pool query params (Some maxRetries) t).1 <> Return None).
Proof.
  split.
  - apply queryWithRetry_no_turn.
  - intros Hm. unfold queryWithRetry. simpl default.
    apply queryWithRetry_loop_settles; lia.
Qed.

(** ** The repository *)

Section RepositoryRuns.

Variable pool : Pool.

(** A truthy field is a field of a value that has properties. *)
Lemma get_prop_field userData k :
  truthy userData = true -> get_prop userData k = Some (field userData k).
Proof. unfold field. by destruct userData. Qed.

Lemma field_truthy userData k :
  truthy (field userData k) = true -> truthy userData = true.
Proof. unfold field. by destruct userData. Qed.

Lemma read_prop_field userData k t :
  truthy userData = true ->
  read_prop userData k t = (Return (field userData k), t).
Proof. intros H. unfold read_prop. by rewrite get_prop_field. Qed.

(** The guards of [create] and [update] read no more than the two fields
    and touch nothing. *)
Lemma create_rejects_spec userData t :
  create_rejects userData t = (Return (negb (create_accepts userData)), t).
Proof.
  unfold create_rejects, create_accepts.
  destruct (truthy userData) eqn:Hd; simpl.
  - unfold bind. rewrite read_prop_field by done.
    destruct (truthy (field userData "name")); simpl; [|done].
    by rewrite read_prop_field.
  - assert (Hn : truthy (field userData "name") = false).
    { destruct (truthy (field _ "name")) eqn:E; [|done].
      apply field_truthy in E. congruence. }
    by rewrite Hn.
Qed.

Lemma update_rejects_spec userData t :
  update_rejects userData t = (Return (negb (update_accepts userData)), t).
Proof.
  unfold update_rejects, update_accepts.
  destruct (truthy userData) eqn:Hd; simpl.
  - unfold bind. rewrite read_prop_field by done.
    destruct (truthy (field userData "name")); simpl; [done|].
    by rewrite read_prop_field.
  - assert (Hf : forall k, truthy (field userData k) = false).
    { intros k. destruct (truthy (field _ k)) eqn:E; [|done].
      apply field_truthy in E. congruence. }
    by rewrite !Hf.
Qed.

Lemma update_accepts_truthy userData :
  update_accepts userData = true -> truthy userData = true.
Proof.
  unfold update_accepts. intros [H|H]%orb_true_iff; by eapply field_truthy.
Qed.

(** The common shape of the store-facing methods: call the executor,
    read [rows], return [f rows]; log and rethrow whatever is thrown. *)
Section Guarded.

Context {A : Type}.
Variables (query : string) (params : list JsVal).
Variables (f : list JsVal -> A) (label : string).

Let guarded : M A :=
  try_catch
    (result <- queryWithRetry pool query params None ;;
     rs <- read_rows result ;;
     ret (f rs))
    (fun error => console_error label error ;;; throw error).

Lemma guarded_success t k r :
  (k < 3)%nat ->
  all_rejected pool t query params k ->
  attempt pool t query params k = Resolved r ->
  guarded t =
  (Return (f (rows r)),
   t ++ backoff_trace query params k ++ [EvQuery query params]).
Proof.
  intros Hk Hrej Hok. unfold guarded, try_catch, bind.
  change (queryWithRetry pool query params None)
    with (queryWithRetry pool query params (Some 3)).
  by rewrite (queryWithRetry_success pool query params 3 k t r)
    by (done || lia).
Qed.

Lemma guarded_exhausted t e :
  all_rejected pool t query params 3 ->
  attempt pool t query params 2 = Rejected e ->
  guarded t =
  (Throw e,
   t ++ backoff_trace query params 2
     ++ [EvQuery query params; EvLog label e]).
Proof.
  intros Hrej Hlast. unfold guarded, try_catch, bind.
  change (queryWithRetry pool query params None)
    with (queryWithRetry pool query params (Some 3)).
  rewrite (queryWithRetry_exhausted pool query params 3 2 t e);
    [|done|intros j Hj; apply Hrej; lia|done].
  unfold console_error, emit, throw. by rewrite <- !app_assoc.
Qed.

(** Whatever the pool does, the first thing that happens is a call of
    the pool with this statement and these parameters. *)
Lemma guarded_calls t :
  exists c rest, guarded t = (c, t ++ EvQuery query params :: rest).
Proof.
  unfold guarded, try_catch, bind, queryWithRetry. simpl default.
  destruct (queryWithRetry_loop_calls pool query params 2 3 0 t)
    as (c & rest & Hrun); [lia|].
  change (Z.to_nat 3) with 3%nat. rewrite Hrun.
  destruct c as [[r|]|e]; simpl; [by eexists _, _|..];
    unfold console_error, emit, throw;
    eexists _, (rest ++ [_]); by rewrite <- app_assoc.
Qed.

(** It throws only what the executor throws after its last attempt. *)
Lemma guarded_throws t e t' :
  guarded t = (Throw e, t') ->
  all_rejected pool t query params 3
  /\ attempt pool t query params 2 = Rejected e.
Proof.
  intros Hrun.
  destruct (attempts_cases pool query params t 3)
    as [(k & r & Hk & Hrej & Hok)|Hrej].
  - by rewrite (guarded_success t k r) in Hrun.
  - split; [done|]. destruct (Hrej 2%nat) as [e' He']; [lia|].
    rewrite (guarded_exhausted t e') in Hrun by done. congruence.
Qed.

End Guarded.

End RepositoryRuns.

Section Methods.

Variable pool : Pool.

(** [create] and [update] past their guards, and [findAll], have the
    common shape. *)
Lemma create_guarded userData t :
  create_accepts userData = true ->
  create pool userData t =
  try_catch
    (result <- queryWithRetry pool
                 "INSERT INTO users (name, email) VALUES ($1, $2) RETURNING *"
                 [field userData "name"; field userData "email"] None ;;
     rs <- read_rows result ;;
     ret (index0 rs))
    (fun error => console_error "Error creating user:" error ;;; throw error)
    t.
Proof.
  intros Hacc. unfold create. unfold bind at 1.
  rewrite create_rejects_spec, Hacc. simpl.
  assert (Hd : truthy userData = true).
  { apply andb_true_iff in Hacc as [H _]. by eapply field_truthy. }
  unfold try_catch. unfold bind at 1. rewrite read_prop_field by done.
  unfold bind at 1. by rewrite read_prop_field by done.
Qed.

(** The locals of [update] once the id is pushed. *)
Lemma update_locals_spec userId userData t :
  truthy userData = true ->
  exists b,
    update_locals userId userData t = (Return b, t)
    /\ updates b = assignments (supplied_columns userData)
    /\ values b = (supplied_columns userData).*2 ++ [userId]
    /\ paramCount b = Z.of_nat (length (supplied_columns userData)) + 1.
Proof.
  intros Hd. unfold update_locals. unfold bind at 1.
  rewrite read_prop_field by done. unfold bind at 1.
  rewrite read_prop_field by done.
  unfold supplied_columns, assignments. rewrite !filter_cons, filter_nil.
  simpl.
  destruct (not_undefined (field userData "name")) eqn:Hn;
    destruct (not_undefined (field userData "email")) eqn:He;
    repeat case_decide; try done; by eexists.
Qed.

Lemma update_guarded userId userData t b :
  update_accepts userData = true ->
  update_locals userId userData t = (Return b, t) ->
  update pool userId userData t =
  try_catch
    (result <- queryWithRetry pool (update_query b) (values b) None ;;
     rs <- read_rows result ;;
     ret (index0 rs))
    (fun error => console_error "Error updating user:" error ;;; throw error)
    t.
Proof.
  intros Hacc Hb. unfold update. unfold bind at 1.
  rewrite update_rejects_spec, Hacc. simpl.
  unfold try_catch. unfold bind at 1. by rewrite Hb.
Qed.

(** Past the guard, [update] calls the pool with the statement and the
    parameters of its locals. *)
Lemma update_calls_pool userId userData t :
  update_accepts userData = true ->
  exists b c rest,
    update_locals userId userData t = (Return b, t)
    /\ updates b = assignments (supplied_columns userData)
    /\ values b = (supplied_columns userData).*2 ++ [userId]
    /\ paramCount b = Z.of_nat (length (supplied_columns userData)) + 1
    /\ update pool userId userData t =
       (c, t ++ EvQuery (update_query b) (values b) :: rest).
Proof.
  intros Hacc.
  destruct (update_locals_spec userId userData t) as (b & Hb & Hu & Hv & Hp);
    [by apply update_accepts_truthy|].
  destruct (guarded_calls pool (update_query b) (values b) index0
              "Error updating user:" t) as (c & rest & Hrun).
  exists b, c, rest. repeat split; try done.
  by rewrite (update_guarded userId userData t b).
Qed.

Lemma findAll_guarded t :
  findAll pool t =
  try_catch
    (result <- queryWithRetry pool "SELECT * FROM users" [] None ;;
     rs <- read_rows result ;;
     ret rs)
    (fun error => console_error "Error fetching all users:" error ;;;
                  throw error)
    t.
Proof.
  unfold findAll, try_catch, bind.
  destruct (queryWithRetry pool "SELECT * FROM users" [] None t)
    as [[[r|]|e] t']; done.
Qed.

End Methods.

(** The request of an accepted [update], text and parameters, written
    from the supplied columns. *)
Lemma update_request_text
    (pool : Pool) (userId userData : JsVal) (t : list Event) :
  update_accepts userData = true ->
  let cols := supplied_columns userData in
  let sql :=
    "UPDATE users SET " +:+ String.concat ", " (assignments cols)
      +:+ " WHERE id = $" +:+ pretty (Z.of_nat (length cols + 1))
      +:+ " RETURNING *" in
  exists b c rest,
    update_locals userId userData t = (Return b, t)
    /\ updates b = assignments cols
    /\ values b = cols.*2 ++ [userId]
    /\ paramCount b = Z.of_nat (length cols) + 1
    /\ update_query b = sql
    /\ update pool userId userData t =
       (c, t ++ EvQuery sql (cols.*2 ++ [userId]) :: rest).
Proof.
  intros Hacc cols sql.
  destruct (update_calls_pool pool userId userData t Hacc)
    as (b & c & rest & Hb & Hu & Hv & Hp & Hrun).
  assert (Hsql : update_query b = sql).
  { unfold update_query, sql. rewrite Hu, Hp. fold cols.
    by replace (Z.of_nat (length cols) + 1)
         with (Z.of_nat (length cols + 1)) by lia. }
  exists b, c, rest. rewrite Hrun, Hsql, Hv. done.
Qed.

(** C2: for data that passes [update]'s guard, the SET clause has one
    assignment per field among name and email that is not [undefined], name
    before email, numbered $1, $2, ... without gap; the WHERE placeholder
    is the number of assignments plus 1; the id is the last parameter; and
    the statement so written, with these parameters, is what [update]
    sends. *)
Theorem update_builds_numbered_set_clause
    (pool : Pool) (userId userData : JsVal) (t : list Event) :
  update_accepts userData = true ->
  let cols :=
    filter (fun c => not_undefined c.2 = true)
      [("name", field userData "name"); ("email", field userData "email")] in
  let n := length cols in
  let set_clause :=
    zip_with (fun c i => c.1 +:+ " = $" +:+ pretty (Z.of_nat i))
      cols (seq 1 n) in
  let sql :=
    "UPDATE users SET " +:+ String.concat ", " set_clause
      +:+ " WHERE id = $" +:+ pretty (Z.of_nat (n + 1))
      +:+ " RETURNING *" in
  let params := cols.*2 ++ [userId] in
  exists b,
    update_locals userId userData t = (Return b, t)
    /\ updates b = set_clause
    /\ length (updates b) = n
    /\ paramCount b = Z.of_nat n + 1
    /\ values b = params
    /\ update_query b = sql
    /\ exists c rest,
         update pool userId userData t =
         (c, t ++ EvQuery sql params :: rest).
Proof.
  intros Hacc cols n set_clause sql params.
  destruct (update_request_text pool userId userData t Hacc)
    as (b & c & rest & Hb & Hu & Hv & Hp & Hsql & Hrun).
  exists b. split; [exact Hb|]. split; [exact Hu|]. split.
  { rewrite Hu. unfold assignments.
    rewrite length_zip_with, length_seq. subst n cols.
    unfold supplied_columns. lia. }
  split; [exact Hp|]. split; [exact Hv|]. split; [exact Hsql|].
  exists c, rest. exact Hrun.
Qed.

(** C3: when name or email is absent or the empty string, [create] throws
    its validation error and the trace is the one it was given: nothing was
    sent to the pool, the executor was not entered. *)
Theorem create_rejects_missing_fields
    (pool : Pool) (userData : JsVal) (t : list Event) :
  missing_or_empty (field userData "name")
  \/ missing_or_empty (field userData "email") ->
  create pool userData t = (Throw create_error, t).
Proof.
  intros H. unfold create, bind. rewrite create_rejects_spec.
  assert (Hacc : create_accepts userData = false).
  { unfold create_accepts.
    destruct H as [[-> | ->] | [-> | ->]]; simpl; by rewrite ?andb_false_r. }
  by rewrite Hacc.
Qed.

(** C4: the guard of [update] tests truthiness.  [update] throws its
    validation error, with nothing sent to the pool, when both name and
    email are absent, and more generally when neither is truthy; when one of
    them is truthy the guard lets the call through and the pool is called. *)
Theorem update_validation
    (pool : Pool) (userId userData : JsVal) (t : list Event) :
  (not_undefined (field userData "name") = false ->
   not_undefined (field userData "email") = false ->
   update pool userId userData t = (Throw update_error, t))
  /\
  (truthy (field userData "name") = false ->
   truthy (field userData "email") = false ->
   update pool userId userData t = (Throw update_error, t))
  /\
  (truthy (field userData "name") = true
   \/ truthy (field userData "email") = true ->
   update_rejects userData t = (Return false, t)
   /\ exists c sql ps rest,
        update pool userId userData t = (c, t ++ EvQuery sql ps :: rest)).
Proof.
  assert (Hfalsy : truthy (field userData "name") = false ->
                   truthy (field userData "email") = false ->
                   update pool userId userData t = (Throw update_error, t)).
  { intros Hn He. unfold update, bind. rewrite update_rejects_spec.
    unfold update_accepts. by rewrite Hn, He. }
  split; [|split].
  - intros Hn He. apply Hfalsy.
    + by destruct (field userData "name").
    + by destruct (field userData "email").
  - done.
  - intros H.
    assert (Hacc : update_accepts userData = true).
    { unfold update_accepts. apply orb_true_iff. done. }
    split; [by rewrite update_rejects_spec, Hacc|].
    destruct (update_calls_pool pool userId userData t Hacc)
      as (b & c & rest & _ & _ & _ & _ & Hrun).
    by exists c, (update_query b), (values b), rest.
Qed.

(** C5: when the first attempt that succeeds returns no row, [findById]
    returns [null]; and [findById] throws only when all 3 attempts of the
    executor failed, the value thrown being the error of the third. *)
Theorem findById_not_found_is_null
    (pool : Pool) (userId : JsVal) (t : list Event) :
  let query := "SELECT * FROM users WHERE id = $1" in
  (forall (k : nat) (r : QueryResult),
      (k < 3)%nat ->
      all_rejected pool t query [userId] k ->
      attempt pool t query [userId] k = Resolved r ->
      rows r = [] ->
      findById pool userId t =
      (Return JNull,
       t ++ backoff_trace query [userId] k ++ [EvQuery query [userId]]))
  /\
  (forall (e : JsVal) (t' : list Event),
      findById pool userId t = (Throw e, t') ->
      all_rejected pool t query [userId] 3
      /\ attempt pool t query [userId] 2 = Rejected e).
Proof.
  intros query. split.
  - intros k r Hk Hrej Hok Hrows. unfold findById.
    rewrite (guarded_success pool _ _ _ _ t k r) by done.
    by rewrite Hrows.
  - intros e t' Hrun. unfold findById in Hrun.
    by apply (guarded_throws pool) in Hrun.
Qed.

(** C6: on a store where no row matches, [delete] and [update] return
    [undefined], which is not the [null] that [findById] returns there;
    none of the three throws. *)
Theorem delete_update_not_found_is_undefined (userId : JsVal) (t : list Event) :
  delete empty_store userId t =
  (Return JUndefined,
   t ++ [EvQuery "DELETE FROM users WHERE id = $1 RETURNING *" [userId]])
  /\ update empty_store userId alice t =
     (Return JUndefined,
      t ++ [EvQuery
              "UPDATE users SET name = $1, email = $2 WHERE id = $3 RETURNING *"
              [JStr "Alice"; JStr "alice@x.com"; userId]])
  /\ findById empty_store userId t =
     (Return JNull,
      t ++ [EvQuery "SELECT * FROM users WHERE id = $1" [userId]])
  /\ JUndefined <> JNull.
Proof. repeat split; done. Qed.

(** C8: when the 3 attempts of the executor all fail, each of [findById],
    [findAll], [create], [update] and [delete] writes the error of the
    third attempt to [console.error] and then throws that same value. *)
Theorem repository_rethrows_final_error (pool : Pool) (t : list Event) (e : JsVal) :
  (forall userId,
      let query := "SELECT * FROM users WHERE id = $1" in
      all_rejected pool t query [userId] 3 ->
      attempt pool t query [userId] 2 = Rejected e ->
      findById pool userId t =
      (Throw e,
       t ++ backoff_trace query [userId] 2
         ++ [EvQuery query [userId]; EvLog "Error fetching user by ID:" e]))
  /\
  (let query := "SELECT * FROM users" in
   all_rejected pool t query [] 3 ->
   attempt pool t query [] 2 = Rejected e ->
   findAll pool t =
   (Throw e,
    t ++ backoff_trace query [] 2
      ++ [EvQuery query []; EvLog "Error fetching all users:" e]))
  /\
  (forall userData,
      let query :=
        "INSERT INTO users (name, email) VALUES ($1, $2) RETURNING *" in
      let params := [field userData "name"; field userData "email"] in
      create_accepts userData = true ->
      all_rejected pool t query params 3 ->
      attempt pool t query params 2 = Rejected e ->
      create pool userData t =
      (Throw e,
       t ++ backoff_trace query params 2
         ++ [EvQuery query params; EvLog "Error creating user:" e]))
  /\
  (forall userId userData b,
      update_accepts userData = true ->
      update_locals userId userData t = (Return b, t) ->
      all_rejected pool t (update_query b) (values b) 3 ->
      attempt pool t (update_query b) (values b) 2 = Rejected e ->
      update pool userId userData t =
      (Throw e,
       t ++ backoff_trace (update_query b) (values b) 2
         ++ [EvQuery (update_query b) (values b);
             EvLog "Error updating user:" e]))
  /\
  (forall userId,
      let query := "DELETE FROM users WHERE id = $1 RETURNING *" in
      all_rejected pool t query [userId] 3 ->
      attempt pool t query [userId] 2 = Rejected e ->
      delete pool userId t =
      (Throw e,
       t ++ backoff_trace query [userId] 2
         ++ [EvQuery query [userId]; EvLog "Error deleting user:" e])).
Proof.
  repeat split.
  - intros userId query Hrej Hlast. by apply (guarded_exhausted pool).
  - intros query Hrej Hlast. rewrite findAll_guarded.
    by apply (guarded_exhausted pool).
  - intros userData query params Hacc Hrej Hlast.
    rewrite create_guarded by done. by apply (guarded_exhausted pool).
  - intros userId userData b Hacc Hb Hrej Hlast.
    rewrite (update_guarded pool userId userData t b) by done.
    by apply (guarded_exhausted pool).
  - intros userId query Hrej Hlast. by apply (guarded_exhausted pool).
Qed.

(** C10: [update]'s guard tests truthiness and its SET clause tests
    [!== undefined].  So when email is truthy and name is defined but falsy
    ([null], the empty string), the call passes the guard and sends an
    UPDATE that assigns that falsy value to the name column; and the same
    with the two fields exchanged. *)
Theorem update_writes_defined_falsy_field
    (pool : Pool) (userId userData : JsVal) (t : list Event) :
  let name := field userData "name" in
  let email := field userData "email" in
  let sql :=
    "UPDATE users SET name = $1, email = $2 WHERE id = $3 RETURNING *" in
  (truthy email = true /\ truthy name = false /\ not_undefined name = true
   \/ truthy name = true /\ truthy email = false /\ not_undefined email = true) ->
  update_rejects userData t = (Return false, t)
  /\ exists c rest,
       update pool userId userData t =
       (c, t ++ EvQuery sql [name; email; userId] :: rest).
Proof.
  intros name email sql H.
  assert (Hacc : update_accepts userData = true).
  { unfold update_accepts. fold name email.
    destruct H as [(-> & _)|(-> & _)]; by rewrite ?orb_true_r. }
  assert (Hdef : not_undefined name = true /\ not_undefined email = true).
  { destruct H as [(He & _ & Hn)|(Hn & _ & He)]; split; try done.
    - by destruct email.
    - by destruct name. }
  destruct Hdef as [Hn He].
  split; [by rewrite update_rejects_spec, Hacc|].
  destruct (update_calls_pool pool userId userData t Hacc)
    as (b & c & rest & _ & Hu & Hv & Hp & Hrun).
  exists c, rest. rewrite Hrun. unfold update_query.
  rewrite Hu, Hv, Hp. unfold supplied_columns.
  rewrite !filter_cons, filter_nil. simpl. fold name email.
  rewrite Hn, He. by repeat case_decide.
Qed.

(** ** Runs on concrete pools *)

(** The two updates of the specification's examples. *)
Example update_only_name_request :
  update empty_store (JNum 7) only_name [] =
  (Return JUndefined,
   [EvQuery "UPDATE users SET name = $1 WHERE id = $2 RETURNING *"
      [JStr "A"; JNum 7]]).
Proof. reflexivity. Qed.

Example update_name_and_email_request :
  update (flaky_pool alice) (JNum 7) alice [] =
  (Return alice,
   let sql :=
     "UPDATE users SET name = $1, email = $2 WHERE id = $3 RETURNING *" in
   let ps := [JStr "Alice"; JStr "alice@x.com"; JNum 7] in
   [EvQuery sql ps; EvSleep 1000; EvQuery sql ps; EvSleep 2000; EvQuery sql ps]).
Proof. reflexivity. Qed.

(** A name that is supplied, though empty, does not get past the guard of
    [update]: the validation error is thrown and the pool is not called. *)
Lemma update_rejects_supplied_empty_name :
  not_undefined (field blank_name "name") = true
  /\ update empty_store (JNum 1) blank_name [] = (Throw update_error, []).
Proof. split; reflexivity. Qed.

Lemma down_pool_all_rejected t query params n :
  all_rejected down_pool t query params n.
Proof. intros j _. by eexists. Qed.

Lemma queryWithRetry_first_success_or_final_error_witness :
  queryWithRetry (flaky_pool alice) "SELECT 1" [] None [] =
  (Return (Some (mkResult [alice])),
   [EvQuery "SELECT 1" []; EvSleep 1000;
    EvQuery "SELECT 1" []; EvSleep 2000; EvQuery "SELECT 1" []])
  /\ queryWithRetry down_pool "SELECT 1" [] None [] =
     (Throw (JError "Error" "timeout 2"),
      [EvQuery "SELECT 1" []; EvSleep 1000;
       EvQuery "SELECT 1" []; EvSleep 2000; EvQuery "SELECT 1" []]).
Proof.
  split.
  - apply (proj1 (queryWithRetry_first_success_or_final_error
                    (flaky_pool alice) "SELECT 1" [] [])
             2%nat (mkResult [alice])).
    + lia.
    + intros j Hj. destruct j as [|[|j]]; [by eexists..|lia].
    + reflexivity.
  - apply (proj2 (queryWithRetry_first_success_or_final_error
                    down_pool "SELECT 1" [] [])
             (JError "Error" "timeout 2")).
    + apply down_pool_all_rejected.
    + reflexivity.
Defined.

Lemma update_builds_numbered_set_clause_witness :
  update_accepts only_name = true
  /\ update_accepts alice = true
  /\ (exists c rest,
        update empty_store (JNum 7) only_name [] =
        (c, [] ++ EvQuery "UPDATE users SET name = $1 WHERE id = $2 RETURNING *"
                    [JStr "A"; JNum 7] :: rest))
  /\ exists b,
       update_locals (JNum 7) alice [] = (Return b, [])
       /\ updates b = ["name = $1"; "email = $2"]
       /\ paramCount b = 3
       /\ values b = [JStr "Alice"; JStr "alice@x.com"; JNum 7]
       /\ update_query b =
          "UPDATE users SET name = $1, email = $2 WHERE id = $3 RETURNING *".
Proof.
  split; [reflexivity|]. split; [reflexivity|]. split.
  - destruct (update_builds_numbered_set_clause empty_store (JNum 7)
                only_name [] eq_refl) as (b & _ & _ & _ & _ & _ & _ & Hrun).
    exact Hrun.
  - destruct (update_builds_numbered_set_clause empty_store (JNum 7) alice []
                eq_refl) as (b & Hb & Hu & _ & Hp & Hv & Hsql & _).
    exists b. exact (conj Hb (conj Hu (conj Hp (conj Hv Hsql)))).
Defined.

Lemma create_rejects_missing_fields_witness :
  (missing_or_empty (field only_name "name")
   \/ missing_or_empty (field only_name "email"))
  /\ create empty_store only_name [] = (Throw create_error, []).
Proof.
  assert (H : missing_or_empty (field only_name "name")
              \/ missing_or_empty (field only_name "email")).
  { right. left. reflexivity. }
  split; [exact H|].
  exact (create_rejects_missing_fields empty_store only_name [] H).
Defined.

Lemma update_validation_witness :
  update empty_store (JNum 1) (JObj ∅) [] = (Throw update_error, [])
  /\ update empty_store (JNum 1) blank_name [] = (Throw update_error, [])
  /\ update_rejects only_name [] = (Return false, []).
Proof.
  split; [|split].
  - apply (proj1 (update_validation empty_store (JNum 1) (JObj ∅) []));
      reflexivity.
  - apply (proj1 (proj2 (update_validation empty_store (JNum 1) blank_name [])));
      reflexivity.
  - apply (proj2 (proj2 (update_validation empty_store (JNum 1) only_name []))).
    left. reflexivity.
Defined.

Lemma findById_not_found_is_null_witness :
  findById empty_store (JNum 1) [] =
  (Return JNull, [EvQuery "SELECT * FROM users WHERE id = $1" [JNum 1]])
  /\ attempt down_pool [] "SELECT * FROM users WHERE id = $1" [JNum 1] 2
     = Rejected (JError "Error" "timeout 2").
Proof.
  split.
  - apply (proj1 (findById_not_found_is_null empty_store (JNum 1) [])
             0%nat (mkResult [])); [lia| |reflexivity..].
    intros j Hj. lia.
  - apply (proj2 (findById_not_found_is_null down_pool (JNum 1) [])
             (JError "Error" "timeout 2")
             (findById down_pool (JNum 1) []).2).
    reflexivity.
Defined.

Lemma queryWithRetry_backoff_delays_witness :
  (exists c rest,
      queryWithRetry down_pool "SELECT 1" [] (Some 3) [] =
      (c, [EvQuery "SELECT 1" []; EvSleep 1000; EvQuery "SELECT 1" []] ++ rest))
  /\ exists e t',
       queryWithRetry down_pool "SELECT 1" [] None [] = (Throw e, t')
       /\ t' = [] ++ [EvQuery "SELECT 1" []; EvSleep 1000;
                      EvQuery "SELECT 1" []; EvSleep 2000;
                      EvQuery "SELECT 1" []]
       /\ sleeps t' = sleeps [] ++ [1000; 2000].
Proof.
  split.
  - apply (proj1 (queryWithRetry_backoff_delays down_pool "SELECT 1" [] [])
             3 0%nat); [lia|].
    apply down_pool_all_rejected.
  - apply (proj2 (queryWithRetry_backoff_delays down_pool "SELECT 1" [] [])).
    apply down_pool_all_rejected.
Defined.

Lemma repository_rethrows_final_error_witness :
  let e := JError "Error" "timeout 2" in
  (findById down_pool (JNum 1) []).1 = Throw e
  /\ (findAll down_pool []).1 = Throw e
  /\ (create down_pool alice []).1 = Throw e
  /\ (update down_pool (JNum 1) alice []).1 = Throw e
  /\ (delete down_pool (JNum 1) []).1 = Throw e.
Proof.
  intros e.
  destruct (repository_rethrows_final_error down_pool [] e)
    as (Hfind & Hall & Hcreate & Hupdate & Hdelete).
  split; [|split; [|split; [|split]]].
  - rewrite Hfind; [reflexivity|apply down_pool_all_rejected|reflexivity].
  - rewrite Hall; [reflexivity|apply down_pool_all_rejected|reflexivity].
  - rewrite Hcreate;
      [reflexivity|reflexivity|apply down_pool_all_rejected|reflexivity].
  - rewrite (Hupdate (JNum 1) alice
               {| updates := ["name = $1"; "email = $2"];
                  values := [JStr "Alice"; JStr "alice@x.com"; JNum 1];
                  paramCount := 3 |});
      [reflexivity|reflexivity|reflexivity|apply down_pool_all_rejected
      |reflexivity].
  - rewrite Hdelete; [reflexivity|apply down_pool_all_rejected|reflexivity].
Defined.

Lemma queryWithRetry_nonpositive_limit_witness :
  queryWithRetry empty_store "SELECT 1" [] (Some 0) [] = (Return None, [])
  /\ queryWithRetry empty_store "SELECT 1" [] (Some (-2)) [] = (Return None, [])
  /\ (queryWithRetry down_pool "SELECT 1" [] (Some 1) []).1 <> Return None.
Proof.
  split; [|split].
  - apply (proj1 (queryWithRetry_nonpositive_limit
                    empty_store "SELECT 1" [] [] 0)). lia.
  - apply (proj1 (queryWithRetry_nonpositive_limit
                    empty_store "SELECT 1" [] [] (-2))). lia.
  - apply (proj2 (queryWithRetry_nonpositive_limit
                    down_pool "SELECT 1" [] [] 1)). lia.
Defined.

Lemma update_writes_defined_falsy_field_witness :
  update_rejects blank_name_with_email [] = (Return false, [])
  /\ exists c rest,
       update empty_store (JNum 1) blank_name_with_email [] =
       (c, [] ++ EvQuery
                   "UPDATE users SET name = $1, email = $2 WHERE id = $3 RETURNING *"
                   [JStr ""; JStr "b@x.com"; JNum 1] :: rest).
Proof.
  apply (update_writes_defined_falsy_field
           empty_store (JNum 1) blank_name_with_email []).
  left. repeat split; reflexivity.
Defined.

(** ** More on the executor: any limit, any pool *)

Section ExecutorShape.

Variable pool : Pool.
Variables (query : string) (params : list JsVal).

Lemma queries_app t1 t2 : queries (t1 ++ t2) = queries t1 ++ queries t2.
Proof. unfold queries. apply omap_app. Qed.

Lemma queries_backoff k :
  queries (backoff_trace query params k) = replicate k (query, params).
Proof.
  induction k as [|k IH]; [done|].
  by rewrite backoff_trace_S, queries_app, IH, replicate_S_end.
Qed.

Lemma logs_app t1 t2 : logs (t1 ++ t2) = logs t1 ++ logs t2.
Proof. unfold logs. apply omap_app. Qed.

Lemma logs_backoff k : logs (backoff_trace query params k) = [].
Proof.
  induction k as [|k IH]; [done|].
  by rewrite backoff_trace_S, logs_app, IH.
Qed.

Lemma total_delay_app t1 t2 :
  total_delay (t1 ++ t2) = total_delay t1 + total_delay t2.
Proof.
  unfold total_delay. rewrite sleeps_app.
  induction (sleeps t1) as [|ms l IH]; simpl; lia.
Qed.

Lemma total_delay_backoff k :
  total_delay (backoff_trace query params k) =
  500 * Z.of_nat k * (Z.of_nat k + 1).
Proof.
  induction k as [|k IH]; [done|].
  rewrite backoff_trace_S, total_delay_app, IH.
  unfold total_delay. simpl. lia.
Qed.

(** Every run with a positive limit stops at an attempt [k] below the
    limit: at the first success, or at the last attempt when all fail. *)
Lemma queryWithRetry_run_cases maxRetries t :
  1 <= maxRetries ->
  exists k,
    Z.of_nat k < maxRetries
    /\ all_rejected pool t query params k
    /\ ((exists r,
           attempt pool t query params k = Resolved r
           /\ queryWithRetry pool query params (Some maxRetries) t =
              (Return (Some r),
               t ++ backoff_trace query params k ++ [EvQuery query params]))
        \/ (Z.of_nat k = maxRetries - 1
            /\ exists e,
                 attempt pool t query params k = Rejected e
                 /\ queryWithRetry pool query params (Some maxRetries) t =
                    (Throw e,
                     t ++ backoff_trace query params k
                       ++ [EvQuery query params]))).
Proof.
  intros Hn.
  destruct (attempts_cases pool query params t (Z.to_nat maxRetries))
    as [(k & r & Hk & Hrej & Hok)|Hrej].
  - exists k. split; [lia|]. split; [done|]. left. exists r. split; [done|].
    apply queryWithRetry_success; [lia|done..].
  - exists (Z.to_nat maxRetries - 1)%nat. split; [lia|].
    split; [intros j Hj; apply Hrej; lia|]. right. split; [lia|].
    destruct (Hrej (Z.to_nat maxRetries - 1)%nat) as [e He]; [lia|].
    exists e. split; [done|].
    apply queryWithRetry_exhausted; [lia| |done].
    intros j Hj. apply Hrej. lia.
Qed.

End ExecutorShape.

(** X1: whatever the pool does and whatever the positive limit,
    [queryWithRetry] stops at some attempt [k] below the limit, the attempts
    before it having failed: either attempt [k] succeeded and its result is
    returned, or [k] is the last attempt and its error is thrown.  Up to
    there each call of the pool was followed by its back-off delay. *)
Theorem queryWithRetry_any_limit
    (pool : Pool) (query : string) (params : list JsVal) (t : list Event)
    (maxRetries : Z) :
  1 <= maxRetries ->
  exists k,
    Z.of_nat k < maxRetries
    /\ all_rejected pool t query params k
    /\ (queryWithRetry pool query params (Some maxRetries) t).2 =
       t ++ backoff_trace query params k ++ [EvQuery query params]
    /\ ((exists r,
           attempt pool t query params k = Resolved r
           /\ (queryWithRetry pool query params (Some maxRetries) t).1 =
              Return (Some r))
        \/ (Z.of_nat k = maxRetries - 1
            /\ exists e,
                 attempt pool t query params k = Rejected e
                 /\ (queryWithRetry pool query params (Some maxRetries) t).1 =
                    Throw e)).
Proof.
  intros Hn.
  destruct (queryWithRetry_run_cases pool query params maxRetries t Hn)
    as (k & Hk & Hrej & [(r & Hok & Hrun)|(Hlast & e & Herr & Hrun)]);
    exists k; rewrite Hrun; (split; [done|]); (split; [done|]);
    (split; [done|]).
  - left. by exists r.
  - right. split; [done|]. by exists e.
Qed.

(** X2: [queryWithRetry] calls the pool at most [maxRetries] times, at
    least once when the limit is positive, each time with the statement and
    the parameters it was given; and it writes nothing to [console.error]. *)
Theorem queryWithRetry_resends_same_request
    (pool : Pool) (query : string) (params : list JsVal) (t : list Event)
    (maxRetries : Z) :
  exists calls : nat,
    queries (queryWithRetry pool query params (Some maxRetries) t).2 =
    queries t ++ replicate calls (query, params)
    /\ Z.of_nat calls <= Z.max 0 maxRetries
    /\ (1 <= maxRetries -> (1 <= calls)%nat)
    /\ logs (queryWithRetry pool query params (Some maxRetries) t).2 = logs t.
Proof.
  destruct (Z_lt_le_dec maxRetries 1) as [Hn|Hn].
  - exists 0%nat. rewrite queryWithRetry_no_turn by lia. simpl.
    rewrite app_nil_r. repeat split; lia.
  - destruct (queryWithRetry_run_cases pool query params maxRetries t Hn)
      as (k & Hk & _ & [(r & _ & Hrun)|(_ & e & _ & Hrun)]);
      exists (S k); rewrite Hrun; cbn [snd];
      rewrite !queries_app, !logs_app, queries_backoff, logs_backoff,
        replicate_S_end, !app_nil_r;
      (split; [done|]); (split; [lia|]); (split; [lia|done]).
Qed.

(** X3: with a positive limit [n] a run of [queryWithRetry] spends at most
    [500 * n * (n - 1)] ms in back-off delays, and exactly that much when
    all attempts fail; with the default limit that is 3000 ms. *)
Theorem queryWithRetry_total_delay
    (pool : Pool) (query : string) (params : list JsVal) (t : list Event)
    (maxRetries : Z) :
  1 <= maxRetries ->
  let t' := (queryWithRetry pool query params (Some maxRetries) t).2 in
  total_delay t <= total_delay t'
  /\ total_delay t' <= total_delay t + 500 * maxRetries * (maxRetries - 1)
  /\ (all_rejected pool t query params (Z.to_nat maxRetries) ->
      total_delay t' = total_delay t + 500 * maxRetries * (maxRetries - 1))
  /\ (maxRetries = 3 -> total_delay t' <= total_delay t + 3000).
Proof.
  intros Hn t'.
  destruct (queryWithRetry_run_cases pool query params maxRetries t Hn)
    as (k & Hk & _ & Hcases).
  assert (Ht' : t' = t ++ backoff_trace query params k ++ [EvQuery query params]).
  { unfold t'. by destruct Hcases as [(r & _ & ->)|(_ & e & _ & ->)]. }
  assert (Hd : total_delay t' =
               total_delay t + 500 * Z.of_nat k * (Z.of_nat k + 1)).
  { rewrite Ht', !total_delay_app, total_delay_backoff.
    unfold total_delay. simpl. lia. }
  rewrite Hd. split; [nia|]. split; [nia|]. split; [|intros ->; nia].
  intros Hrej.
  destruct Hcases as [(r & Hok & _)|(Hlast & _)].
  - destruct (Hrej k) as [e He]; [lia|]. congruence.
  - replace (Z.of_nat k) with (maxRetries - 1) by lia. lia.
Qed.

(** ** More on the repository: any pool *)

Section GuardedShape.

Variable pool : Pool.
Context {A : Type}.
Variables (query : string) (params : list JsVal).
Variables (f : list JsVal -> A) (label : string).

Let guarded : M A :=
  try_catch
    (result <- queryWithRetry pool query params None ;;
     rs <- read_rows result ;;
     ret (f rs))
    (fun error => console_error label error ;;; throw error).

(** A store-facing method ends at the first success, or after the third
    failure with the error logged. *)
Lemma guarded_run_cases t :
  exists k,
    (k < 3)%nat
    /\ all_rejected pool t query params k
    /\ ((exists r,
           attempt pool t query params k = Resolved r
           /\ guarded t =
              (Return (f (rows r)),
               t ++ backoff_trace query params k ++ [EvQuery query params]))
        \/ (k = 2%nat
            /\ exists e,
                 attempt pool t query params 2 = Rejected e
                 /\ guarded t =
                    (Throw e,
                     t ++ backoff_trace query params 2
                       ++ [EvQuery query params; EvLog label e]))).
Proof.
  destruct (attempts_cases pool query params t 3)
    as [(k & r & Hk & Hrej & Hok)|Hrej].
  - exists k. split; [done|]. split; [done|]. left. exists r.
    split; [done|]. by apply (guarded_success pool).
  - exists 2%nat. split; [lia|]. split; [intros j Hj; apply Hrej; lia|].
    right. split; [done|]. destruct (Hrej 2%nat) as [e He]; [lia|].
    exists e. split; [done|]. by apply (guarded_exhausted pool).
Qed.

Lemma guarded_logs t :
  logs (guarded t).2 =
  logs t ++ match (guarded t).1 with
            | Return _ => []
            | Throw e => [(label, e)]
            end.
Proof.
  destruct (guarded_run_cases t)
    as (k & _ & _ & [(r & _ & ->)|(_ & e & _ & ->)]); cbn [fst snd];
    by rewrite !logs_app, logs_backoff.
Qed.

Lemma guarded_work t :
  exists calls,
    (1 <= calls <= 3)%nat
    /\ queries (guarded t).2 = queries t ++ replicate calls (query, params)
    /\ total_delay t <= total_delay (guarded t).2 <= total_delay t + 3000.
Proof.
  destruct (guarded_run_cases t)
    as (k & Hk & _ & [(r & _ & ->)|(-> & e & _ & ->)]); cbn [fst snd].
  - exists (S k). split; [lia|].
    rewrite !queries_app, queries_backoff, replicate_S_end. split; [done|].
    rewrite !total_delay_app, total_delay_backoff.
    unfold total_delay. simpl. nia.
  - exists 3%nat. split; [lia|].
    rewrite !queries_app, queries_backoff. split; [done|].
    rewrite !total_delay_app, total_delay_backoff.
    unfold total_delay. simpl. lia.
Qed.

End GuardedShape.

(** X4: when attempt [k < 3] is the first that succeeds, with result [r],
    the errors before it are absorbed: [findById] returns [r.rows[0]] or
    [null], [findAll] returns [r.rows], and [create], [update] and [delete]
    return [r.rows[0]]; nothing is logged. *)
Theorem repository_returns_first_success
    (pool : Pool) (t : list Event) (k : nat) (r : QueryResult) :
  (k < 3)%nat ->
  (forall userId,
      let query := "SELECT * FROM users WHERE id = $1" in
      all_rejected pool t query [userId] k ->
      attempt pool t query [userId] k = Resolved r ->
      findById pool userId t =
      (Return (js_or (index0 (rows r)) JNull),
       t ++ backoff_trace query [userId] k ++ [EvQuery query [userId]]))
  /\
  (let query := "SELECT * FROM users" in
   all_rejected pool t query [] k ->
   attempt pool t query [] k = Resolved r ->
   findAll pool t =
   (Return (rows r), t ++ backoff_trace query [] k ++ [EvQuery query []]))
  /\
  (forall userData,
      let query :=
        "INSERT INTO users (name, email) VALUES ($1, $2) RETURNING *" in
      let params := [field userData "name"; field userData "email"] in
      create_accepts userData = true ->
      all_rejected pool t query params k ->
      attempt pool t query params k = Resolved r ->
      create pool userData t =
      (Return (index0 (rows r)),
       t ++ backoff_trace query params k ++ [EvQuery query params]))
  /\
  (forall userId userData b,
      update_accepts userData = true ->
      update_locals userId userData t = (Return b, t) ->
      all_rejected pool t (update_query b) (values b) k ->
      attempt pool t (update_query b) (values b) k = Resolved r ->
      update pool userId userData t =
      (Return (index0 (rows r)),
       t ++ backoff_trace (update_query b) (values b) k
         ++ [EvQuery (update_query b) (values b)]))
  /\
  (forall userId,
      let query := "DELETE FROM users WHERE id = $1 RETURNING *" in
      all_rejected pool t query [userId] k ->
      attempt pool t query [userId] k = Resolved r ->
      delete pool userId t =
      (Return (index0 (rows r)),
       t ++ backoff_trace query [userId] k ++ [EvQuery query [userId]])).
Proof.
  intros Hk. split; [|split; [|split; [|split]]].
  - intros userId query Hrej Hok.
    exact (guarded_success pool _ _ (fun rs => js_or (index0 rs) JNull) _
             t k r Hk Hrej Hok).
  - intros query Hrej Hok. rewrite findAll_guarded.
    exact (guarded_success pool _ _ (fun rs => rs) _ t k r Hk Hrej Hok).
  - intros userData query params Hacc Hrej Hok.
    rewrite create_guarded by done.
    exact (guarded_success pool _ _ index0 _ t k r Hk Hrej Hok).
  - intros userId userData b Hacc Hb Hrej Hok.
    rewrite (update_guarded pool userId userData t b) by done.
    exact (guarded_success pool _ _ index0 _ t k r Hk Hrej Hok).
  - intros userId query Hrej Hok.
    exact (guarded_success pool _ _ index0 _ t k r Hk Hrej Hok).
Qed.

(** X5: [findById] never returns [undefined]: what it returns is [null] or
    a truthy first row. *)
Theorem findById_never_undefined
    (pool : Pool) (userId : JsVal) (t : list Event) (v : JsVal) :
  (findById pool userId t).1 = Return v ->
  v <> JUndefined /\ (v = JNull \/ truthy v = true).
Proof.
  unfold findById.
  destruct (guarded_run_cases pool "SELECT * FROM users WHERE id = $1"
              [userId] (fun rs => js_or (index0 rs) JNull)
              "Error fetching user by ID:" t)
    as (k & _ & _ & [(r & _ & ->)|(_ & e & _ & ->)]); cbn [fst]; [|done].
  intros [= <-]. unfold js_or.
  destruct (truthy (index0 (rows r))) eqn:Htr.
  - split; [|by right]. intros Hu. by rewrite Hu in Htr.
  - split; [done|by left].
Qed.

(** X6: the guard of [create] tests truthiness.  When name or email is
    falsy (absent, [null], the empty string, [0], [false], [NaN]) [create]
    throws its validation error and the pool is not called; otherwise the
    first thing it does is send its INSERT with the parameters name, email,
    in this order. *)
Theorem create_guard
    (pool : Pool) (userData : JsVal) (t : list Event) :
  (truthy (field userData "name") = false
   \/ truthy (field userData "email") = false ->
   create pool userData t = (Throw create_error, t))
  /\
  (truthy (field userData "name") = true ->
   truthy (field userData "email") = true ->
   exists c rest,
     create pool userData t =
     (c, t ++ EvQuery
                "INSERT INTO users (name, email) VALUES ($1, $2) RETURNING *"
                [field userData "name"; field userData "email"] :: rest)).
Proof.
  split.
  - intros H. unfold create, bind. rewrite create_rejects_spec.
    unfold create_accepts.
    by destruct H as [-> | ->]; rewrite ?andb_false_r.
  - intros Hn He. rewrite create_guarded.
    + apply (guarded_calls pool).
    + unfold create_accepts. by rewrite Hn, He.
Qed.

Section MethodsShape.

Variable pool : Pool.

Lemma create_refused userData t :
  create_accepts userData = false ->
  create pool userData t = (Throw create_error, t).
Proof.
  intros H. unfold create, bind. by rewrite create_rejects_spec, H.
Qed.

Lemma update_refused userId userData t :
  update_accepts userData = false ->
  update pool userId userData t = (Throw update_error, t).
Proof.
  intros H. unfold update, bind. by rewrite update_rejects_spec, H.
Qed.

(** The columns of an accepted update: one or two, and the locals count
    them. *)
Lemma update_locals_sizes userId userData t :
  update_accepts userData = true ->
  exists b,
    update_locals userId userData t = (Return b, t)
    /\ (1 <= length (updates b) <= 2)%nat
    /\ length (values b) = S (length (updates b))
    /\ paramCount b = Z.of_nat (length (values b))
    /\ update_query b =
       if not_undefined (field userData "name")
       then if not_undefined (field userData "email")
            then "UPDATE users SET name = $1, email = $2 WHERE id = $3 RETURNING *"
            else "UPDATE users SET name = $1 WHERE id = $2 RETURNING *"
       else "UPDATE users SET email = $1 WHERE id = $2 RETURNING *".
Proof.
  intros Hacc.
  destruct (update_locals_spec userId userData t) as (b & Hb & Hu & Hv & Hp);
    [by apply update_accepts_truthy|].
  exists b. split; [done|]. unfold update_query. rewrite Hu, Hv, Hp.
  unfold supplied_columns, assignments. rewrite !filter_cons, filter_nil.
  unfold update_accepts in Hacc. simpl.
  destruct (not_undefined (field userData "name")) eqn:Hn;
    destruct (not_undefined (field userData "email")) eqn:He;
    repeat case_decide; try done; simpl; try (repeat split; (lia || done)).
  destruct (field userData "name"); try done.
  destruct (field userData "email"); done.
Qed.

End MethodsShape.

(** X7: a method writes to [console.error] exactly when it throws out of
    its [try] block, one line carrying the value it throws; a call that
    returns, or that is refused by the guard of [create] or [update],
    writes nothing. *)
Theorem repository_logs_what_it_throws (pool : Pool) (t : list Event) :
  (forall userId,
      let run := findById pool userId t in
      logs run.2 =
      logs t ++ match run.1 with
                | Return _ => []
                | Throw e => [("Error fetching user by ID:", e)]
                end)
  /\
  (let run := findAll pool t in
   logs run.2 =
   logs t ++ match run.1 with
             | Return _ => []
             | Throw e => [("Error fetching all users:", e)]
             end)
  /\
  (forall userData,
      let run := create pool userData t in
      logs run.2 =
      logs t ++ match run.1 with
                | Return _ => []
                | Throw e =>
                    if create_accepts userData
                    then [("Error creating user:", e)] else []
                end)
  /\
  (forall userId userData,
      let run := update pool userId userData t in
      logs run.2 =
      logs t ++ match run.1 with
                | Return _ => []
                | Throw e =>
                    if update_accepts userData
                    then [("Error updating user:", e)] else []
                end)
  /\
  (forall userId,
      let run := delete pool userId t in
      logs run.2 =
      logs t ++ match run.1 with
                | Return _ => []
                | Throw e => [("Error deleting user:", e)]
                end).
Proof.
  split; [|split; [|split; [|split]]].
  - intros userId run. apply (guarded_logs pool).
  - intros run. unfold run. rewrite findAll_guarded.
    apply (guarded_logs pool _ _ (fun rs => rs)).
  - intros userData run. unfold run.
    destruct (create_accepts userData) eqn:Hacc.
    + rewrite create_guarded by done.
      by rewrite (guarded_logs pool _ _ index0).
    + rewrite create_refused by done. simpl. by rewrite app_nil_r.
  - intros userId userData run. unfold run.
    destruct (update_accepts userData) eqn:Hacc.
    + destruct (update_locals_sizes userId userData t Hacc) as (b & Hb & _).
      rewrite (update_guarded pool userId userData t b) by done.
      by rewrite (guarded_logs pool _ _ index0).
    + rewrite update_refused by done. simpl. by rewrite app_nil_r.
  - intros userId run. apply (guarded_logs pool).
Qed.

(** X8: a call that reaches the store sends its statement at least once and
    at most 3 times, always the same statement with the same parameters,
    and spends at most 3000 ms waiting between the attempts. *)
Theorem repository_bounded_work (pool : Pool) (t : list Event) :
  (forall userId,
      exists calls,
        (1 <= calls <= 3)%nat
        /\ queries (findById pool userId t).2 =
           queries t
             ++ replicate calls ("SELECT * FROM users WHERE id = $1", [userId])
        /\ total_delay t <= total_delay (findById pool userId t).2
           <= total_delay t + 3000)
  /\
  (exists calls,
      (1 <= calls <= 3)%nat
      /\ queries (findAll pool t).2 =
         queries t ++ replicate calls ("SELECT * FROM users", [])
      /\ total_delay t <= total_delay (findAll pool t).2
         <= total_delay t + 3000)
  /\
  (forall userData,
      create_accepts userData = true ->
      exists calls,
        (1 <= calls <= 3)%nat
        /\ queries (create pool userData t).2 =
           queries t
             ++ replicate calls
                  ("INSERT INTO users (name, email) VALUES ($1, $2) RETURNING *",
                   [field userData "name"; field userData "email"])
        /\ total_delay t <= total_delay (create pool userData t).2
           <= total_delay t + 3000)
  /\
  (forall userId userData,
      update_accepts userData = true ->
      exists calls b,
        update_locals userId userData t = (Return b, t)
        /\ (1 <= calls <= 3)%nat
        /\ queries (update pool userId userData t).2 =
           queries t ++ replicate calls (update_query b, values b)
        /\ total_delay t <= total_delay (update pool userId userData t).2
           <= total_delay t + 3000)
  /\
  (forall userId,
      exists calls,
        (1 <= calls <= 3)%nat
        /\ queries (delete pool userId t).2 =
           queries t
             ++ replicate calls
                  ("DELETE FROM users WHERE id = $1 RETURNING *", [userId])
        /\ total_delay t <= total_delay (delete pool userId t).2
           <= total_delay t + 3000).
Proof.
  split; [|split; [|split; [|split]]].
  - intros userId. apply (guarded_work pool).
  - rewrite findAll_guarded. apply (guarded_work pool _ _ (fun rs => rs)).
  - intros userData Hacc. rewrite create_guarded by done.
    apply (guarded_work pool).
  - intros userId userData Hacc.
    destruct (update_locals_sizes userId userData t Hacc) as (b & Hb & _).
    rewrite (update_guarded pool userId userData t b) by done.
    destruct (guarded_work pool (update_query b) (values b) index0
                "Error updating user:" t) as (calls & Hc & Hq & Hd).
    by exists calls, b.
  - intros userId. apply (guarded_work pool).
Qed.

(** X9: an accepted [update] always has one or two assignments in its SET
    clause, never none; its parameter list is one longer than the SET
    clause, and the WHERE placeholder of the statement it sends is the
    number of parameters. *)
Theorem update_set_clause_nonempty
    (pool : Pool) (userId userData : JsVal) (t : list Event) :
  update_accepts userData = true ->
  let cols :=
    filter (fun c => not_undefined c.2 = true)
      [("name", field userData "name"); ("email", field userData "email")] in
  let set_clause :=
    zip_with (fun c i => c.1 +:+ " = $" +:+ pretty (Z.of_nat i))
      cols (seq 1 (length cols)) in
  let params := cols.*2 ++ [userId] in
  (1 <= length set_clause <= 2)%nat
  /\ length params = S (length set_clause)
  /\ exists c rest,
       update pool userId userData t =
       (c, t ++ EvQuery
                  ("UPDATE users SET " +:+ String.concat ", " set_clause
                     +:+ " WHERE id = $" +:+ pretty (Z.of_nat (length params))
                     +:+ " RETURNING *")
                  params :: rest).
Proof.
  intros Hacc cols set_clause params.
  destruct (update_request_text pool userId userData t Hacc)
    as (b & c & rest & Hb & Hu & Hv & _ & _ & Hrun).
  destruct (update_locals_sizes userId userData t Hacc)
    as (b' & Hb' & Hlen & Hvals & _).
  rewrite Hb in Hb'. injection Hb' as <-.
  assert (Hset : length set_clause = length (updates b)) by (by rewrite Hu).
  assert (Hps : length params = length (values b)) by (by rewrite Hv).
  assert (Hn : length params = (length cols + 1)%nat).
  { unfold params. by rewrite length_app, length_fmap. }
  split; [lia|]. split; [lia|].
  exists c, rest. rewrite Hn. exact Hrun.
Qed.

(** X10: the text of the statement an accepted [update] sends is one of
    three fixed texts, chosen by which of name and email are not
    [undefined]; the values of the fields occur in the parameter list
    only. *)
Theorem update_statement_text
    (pool : Pool) (userId userData : JsVal) (t : list Event) :
  update_accepts userData = true ->
  exists c ps rest,
    update pool userId userData t =
    (c, t ++ EvQuery
               (if not_undefined (field userData "name")
                then if not_undefined (field userData "email")
                     then "UPDATE users SET name = $1, email = $2 WHERE id = $3 RETURNING *"
                     else "UPDATE users SET name = $1 WHERE id = $2 RETURNING *"
                else "UPDATE users SET email = $1 WHERE id = $2 RETURNING *")
               ps :: rest).
Proof.
  intros Hacc.
  destruct (update_locals_sizes userId userData t Hacc)
    as (b & Hb & _ & _ & _ & Htext).
  destruct (guarded_calls pool (update_query b) (values b) index0
              "Error updating user:" t) as (c & rest & Hrun).
  exists c, (values b), rest.
  rewrite (update_guarded pool userId userData t b) by done.
  by rewrite <- Htext.
Qed.

(** ** [retryWithBackoff] of [src/pages/Cart.js] *)

Section CartRetry.

Variable fn : Cart.Fn.

Lemma cart_backoff_trace_S k :
  Cart.backoff_trace (S k) =
  Cart.backoff_trace k
    ++ [Cart.FnCall; Cart.FnSleep (Cart.backoff_ms (Z.of_nat k))].
Proof. unfold Cart.backoff_trace. by rewrite seq_S, flat_map_app. Qed.

Lemma cart_calls_backoff k t :
  Cart.calls (t ++ Cart.backoff_trace k ++ [Cart.FnCall]) =
  (Cart.calls t + S k)%nat.
Proof.
  unfold Cart.calls. rewrite !omap_app, !length_app.
  assert (Hk : length (omap (fun ev => match ev with
                                       | Cart.FnCall => Some tt
                                       | _ => None
                                       end) (Cart.backoff_trace k)) = k).
  { induction k as [|k IH]; [done|].
    rewrite cart_backoff_trace_S, omap_app, length_app, IH. simpl. lia. }
  rewrite Hk. simpl. lia.
Qed.

Lemma cart_delays_backoff k t :
  Cart.delays (t ++ Cart.backoff_trace k ++ [Cart.FnCall]) =
  Cart.delays t ++ map (fun i => Cart.backoff_ms (Z.of_nat i)) (seq 0 k).
Proof.
  unfold Cart.delays. rewrite !omap_app. simpl. rewrite app_nil_r. f_equal.
  induction k as [|k IH]; [done|].
  by rewrite cart_backoff_trace_S, omap_app, IH, seq_S, map_app.
Qed.

(** Up to index 1014 the delays are the exact powers. *)
Lemma cart_backoff_ms_finite k :
  (k <= 1015)%nat ->
  map (fun i => Cart.backoff_ms (Z.of_nat i)) (seq 0 k) =
  map (fun i => Cart.Millis (2 ^ Z.of_nat i * 1000)) (seq 0 k).
Proof.
  intros Hk. apply map_ext_in. intros i Hi%in_seq.
  unfold Cart.backoff_ms.
  by destruct (Z.leb_spec (Z.of_nat i) 1014); [|lia].
Qed.

Lemma cart_delays_sum k :
  foldr Z.add 0 (map (fun i => 2 ^ Z.of_nat i * 1000) (seq 0 k)) =
  1000 * (2 ^ Z.of_nat k - 1).
Proof.
  induction k as [|k IH]; [done|].
  rewrite seq_S, map_app, foldr_app. simpl.
  replace (Z.of_nat (S k)) with (Z.of_nat k + 1) by lia.
  rewrite Z.pow_add_r by lia.
  assert (Hshift : forall l a,
             foldr Z.add a l = foldr Z.add 0 l + a).
  { induction l as [|x l IHl]; intros a; simpl; [lia|].
    rewrite IHl. lia. }
  rewrite Hshift, IH. lia.
Qed.

(** A rate-limit failure that is not the last attempt hands over to the
    next index after its delay. *)
Lemma retryWithBackoff_loop_retry fuel maxRetries i t e :
  0 <= i < maxRetries - 1 ->
  fn t = Cart.Failed e ->
  Cart.message_includes e "rate limit" = inr true ->
  Cart.retryWithBackoff_loop fn (S fuel) maxRetries i t =
  Cart.retryWithBackoff_loop fn fuel maxRetries (i + 1)
    (t ++ [Cart.FnCall; Cart.FnSleep (Cart.backoff_ms i)]).
Proof.
  intros Hi Hfn Hmsg. simpl.
  destruct (Z.ltb_spec i maxRetries); [|lia].
  unfold Cart.retryWithBackoff_body. rewrite Hfn, Hmsg.
  destruct (Z.ltb_spec i (maxRetries - 1)); [|lia]. simpl.
  by rewrite <- app_assoc.
Qed.

Lemma retryWithBackoff_loop_skip k fuel maxRetries t :
  Z.of_nat k < maxRetries ->
  (forall j, (j < k)%nat -> Cart.rate_limited (Cart.attempt fn t j)) ->
  Cart.retryWithBackoff_loop fn (k + fuel) maxRetries 0 t =
  Cart.retryWithBackoff_loop fn fuel maxRetries (Z.of_nat k)
    (t ++ Cart.backoff_trace k).
Proof.
  revert fuel. induction k as [|k IH]; intros fuel Hk Hrl.
  - simpl. unfold Cart.backoff_trace. simpl. by rewrite app_nil_r.
  - replace (S k + fuel)%nat with (k + S fuel)%nat by lia.
    rewrite IH; [|lia|intros j Hj; apply Hrl; lia].
    destruct (Hrl k) as (e & He & Hmsg); [lia|]. unfold Cart.attempt in He.
    rewrite (retryWithBackoff_loop_retry _ _ _ _ e) by (done || lia).
    rewrite cart_backoff_trace_S, <- app_assoc.
    by replace (Z.of_nat k + 1) with (Z.of_nat (S k)) by lia.
Qed.

(** The run reaches attempt [k] and enters the body there. *)
Lemma retryWithBackoff_at k maxRetries t :
  Z.of_nat k < maxRetries ->
  (forall j, (j < k)%nat -> Cart.rate_limited (Cart.attempt fn t j)) ->
  Cart.retryWithBackoff fn (Some maxRetries) t =
  Cart.retryWithBackoff_loop fn (S (Z.to_nat maxRetries - k - 1)) maxRetries
    (Z.of_nat k) (t ++ Cart.backoff_trace k).
Proof.
  intros Hk Hrl. unfold Cart.retryWithBackoff. simpl default.
  replace (Z.to_nat maxRetries)
    with (k + S (Z.to_nat maxRetries - k - 1))%nat at 1 by lia.
  by apply retryWithBackoff_loop_skip.
Qed.

End CartRetry.

(** X11: when the attempts before attempt [k] fail with rate-limit errors
    and attempt [k], below the limit, succeeds, [retryWithBackoff] returns
    its value; [fn] was called [k + 1] times, and the delays passed to
    [setTimeout] between the calls were [Math.pow(2, i) * 1000] for
    [i = 0 .. k - 1]: 1000, 2000, 4000, ... ms, exactly, as long as
    [k <= 1015]. *)
Theorem retryWithBackoff_returns_first_success
    (fn : Cart.Fn) (maxRetries : Z) (t : list Cart.FnEvent) (k : nat)
    (v : JsVal) :
  Z.of_nat k < maxRetries ->
  (forall j, (j < k)%nat -> Cart.rate_limited (Cart.attempt fn t j)) ->
  Cart.attempt fn t k = Cart.Fulfilled v ->
  let t' := t ++ Cart.backoff_trace k ++ [Cart.FnCall] in
  Cart.retryWithBackoff fn (Some maxRetries) t = (Return v, t')
  /\ Cart.calls t' = (Cart.calls t + S k)%nat
  /\ Cart.delays t' =
     Cart.delays t ++ map (fun i => Cart.backoff_ms (Z.of_nat i)) (seq 0 k)
  /\ ((k <= 1015)%nat ->
      Cart.delays t' =
      Cart.delays t
        ++ map (fun i => Cart.Millis (2 ^ Z.of_nat i * 1000)) (seq 0 k)).
Proof.
  intros Hk Hrl Hok t'. split; [|split; [|split]].
  - rewrite (retryWithBackoff_at fn k) by done. simpl.
    destruct (Z.ltb_spec (Z.of_nat k) maxRetries); [|lia].
    unfold Cart.retryWithBackoff_body. unfold Cart.attempt in Hok.
    rewrite Hok. unfold t'. by rewrite <- app_assoc.
  - apply cart_calls_backoff.
  - apply cart_delays_backoff.
  - intros Hfin. unfold t'.
    by rewrite cart_delays_backoff, cart_backoff_ms_finite.
Qed.

(** X12: an error whose message is a string without "rate limit" is never
    retried: [retryWithBackoff] throws it as soon as it occurs, with no
    delay and no further call, also when attempts remain. *)
Theorem retryWithBackoff_rethrows_other_errors
    (fn : Cart.Fn) (maxRetries : Z) (t : list Cart.FnEvent) (k : nat)
    (e : JsVal) :
  Z.of_nat k < maxRetries ->
  (forall j, (j < k)%nat -> Cart.rate_limited (Cart.attempt fn t j)) ->
  Cart.attempt fn t k = Cart.Failed e ->
  Cart.message_includes e "rate limit" = inr false ->
  Cart.retryWithBackoff fn (Some maxRetries) t =
  (Throw e, t ++ Cart.backoff_trace k ++ [Cart.FnCall]).
Proof.
  intros Hk Hrl Hfail Hmsg.
  rewrite (retryWithBackoff_at fn k) by done. simpl.
  destruct (Z.ltb_spec (Z.of_nat k) maxRetries); [|lia].
  unfold Cart.retryWithBackoff_body. unfold Cart.attempt in Hfail.
  rewrite Hfail, Hmsg. simpl. by rewrite <- app_assoc.
Qed.

(** X13: when all [n] attempts fail with rate-limit errors,
    [retryWithBackoff] throws the error of the last one after exactly [n]
    calls, with no delay after the last call.  The delay passed to
    [setTimeout] after call [i] is [Math.pow(2, i) * 1000]; for
    [n <= 1016] these are exactly 1000, 2000, ..., [2 ^ (n - 2) * 1000] ms,
    [1000 * (2 ^ (n - 1) - 1)] ms in all, and from index 1015 on the delay
    is [Infinity]. *)
Theorem retryWithBackoff_exhausted
    (fn : Cart.Fn) (maxRetries : Z) (t : list Cart.FnEvent) (k : nat)
    (e : JsVal) :
  maxRetries = Z.of_nat (S k) ->
  (forall j, (j < S k)%nat -> Cart.rate_limited (Cart.attempt fn t j)) ->
  Cart.attempt fn t k = Cart.Failed e ->
  let t' := t ++ Cart.backoff_trace k ++ [Cart.FnCall] in
  Cart.retryWithBackoff fn (Some maxRetries) t = (Throw e, t')
  /\ Cart.calls t' = (Cart.calls t + S k)%nat
  /\ Cart.delays t' =
     Cart.delays t ++ map (fun i => Cart.backoff_ms (Z.of_nat i)) (seq 0 k)
  /\ ((k <= 1015)%nat ->
      Cart.delays t' =
      Cart.delays t
        ++ map (fun i => Cart.Millis (2 ^ Z.of_nat i * 1000)) (seq 0 k)
      /\ foldr Z.add 0 (map (fun i => 2 ^ Z.of_nat i * 1000) (seq 0 k)) =
         1000 * (2 ^ (maxRetries - 1) - 1))
  /\ (forall i, (1015 <= i < k)%nat ->
      Cart.delays t' !! (length (Cart.delays t) + i)%nat = Some Cart.Infinity).
Proof.
  intros Hn Hrl Hfail t'.
  assert (Hdelays : Cart.delays t' =
                    Cart.delays t
                      ++ map (fun i => Cart.backoff_ms (Z.of_nat i)) (seq 0 k))
    by apply cart_delays_backoff.
  split; [|split; [|split; [|split]]].
  - rewrite (retryWithBackoff_at fn k) by (lia || intros; apply Hrl; lia).
    simpl. destruct (Z.ltb_spec (Z.of_nat k) maxRetries); [|lia].
    unfold Cart.retryWithBackoff_body.
    destruct (Hrl k) as (e' & He' & Hmsg); [lia|].
    unfold Cart.attempt in Hfail, He'. rewrite Hfail in He'.
    injection He' as <-. rewrite Hfail, Hmsg.
    destruct (Z.ltb_spec (Z.of_nat k) (maxRetries - 1)); [lia|]. simpl.
    unfold t'. by rewrite <- app_assoc.
  - apply cart_calls_backoff.
  - exact Hdelays.
  - intros Hfin. split.
    + by rewrite Hdelays, cart_backoff_ms_finite.
    + rewrite cart_delays_sum.
      by replace (maxRetries - 1) with (Z.of_nat k) by lia.
  - intros i [Hlo Hhi]. rewrite Hdelays.
    rewrite lookup_app_r by lia.
    replace (length (Cart.delays t) + i - length (Cart.delays t))%nat
      with i by lia.
    rewrite list_lookup_fmap, lookup_seq_lt by done. simpl.
    unfold Cart.backoff_ms.
    by destruct (Z.leb_spec (Z.of_nat i) 1014); [lia|].
Qed.

(** X14: when [fn] throws a value on which [error.message.includes] cannot
    be evaluated ([null], [undefined], a value without a string message),
    [retryWithBackoff] throws the TypeError of that evaluation, which is not
    the value [fn] threw, and stops there. *)
Theorem retryWithBackoff_masks_error_without_message
    (fn : Cart.Fn) (maxRetries : Z) (t : list Cart.FnEvent) (k : nat)
    (e type_err : JsVal) :
  Z.of_nat k < maxRetries ->
  (forall j, (j < k)%nat -> Cart.rate_limited (Cart.attempt fn t j)) ->
  Cart.attempt fn t k = Cart.Failed e ->
  Cart.message_includes e "rate limit" = inl type_err ->
  Cart.retryWithBackoff fn (Some maxRetries) t =
  (Throw type_err, t ++ Cart.backoff_trace k ++ [Cart.FnCall])
  /\ type_err <> e
  /\ exists message, type_err = JError "TypeError" message.
Proof.
  intros Hk Hrl Hfail Hmsg. split; [|split].
  - rewrite (retryWithBackoff_at fn k) by done. simpl.
    destruct (Z.ltb_spec (Z.of_nat k) maxRetries); [|lia].
    unfold Cart.retryWithBackoff_body. unfold Cart.attempt in Hfail.
    rewrite Hfail, Hmsg. by rewrite <- app_assoc.
  - intros ->. unfold Cart.message_includes in Hmsg.
    destruct e as [| | | | | |name message|fields]; simpl in Hmsg;
      try discriminate.
    destruct (default JUndefined (fields !! "message"));
      unfold type_error in Hmsg; discriminate.
  - unfold Cart.message_includes, type_error in Hmsg.
    destruct (get_prop e "message") as [[]|]; simplify_eq; by eexists.
Qed.

(** X15: with a limit that is zero or negative [retryWithBackoff] returns
    [undefined] and never calls [fn]. *)
Theorem retryWithBackoff_nonpositive_limit
    (fn : Cart.Fn) (maxRetries : Z) (t : list Cart.FnEvent) :
  maxRetries <= 0 ->
  Cart.retryWithBackoff fn (Some maxRetries) t = (Return JUndefined, t).
Proof.
  intros Hn. unfold Cart.retryWithBackoff. simpl default.
  destruct (Z.to_nat maxRetries); simpl; [done|].
  by destruct (Z.ltb_spec 0 maxRetries); [lia|].
Qed.

(** ** The earlier repository text of [src/pages/Cart.js] *)

Section CartRepository.

Variable pool : Pool.

Lemma read_prop_defined userData k t :
  userData <> JUndefined -> userData <> JNull ->
  read_prop userData k t = (Return (field userData k), t).
Proof.
  intros Hu Hn. unfold read_prop, field. by destruct userData.
Qed.

Lemma read_prop_nullish userData k t :
  userData = JUndefined \/ userData = JNull ->
  read_prop userData k t = (Throw (type_error userData k), t).
Proof. by intros [-> | ->]. Qed.

Lemma cart_create_guarded userData t :
  userData <> JUndefined -> userData <> JNull ->
  Cart.create pool userData t =
  try_catch
    (result <- queryWithRetry pool
                 "INSERT INTO users (name, email) VALUES ($1, $2) RETURNING *"
                 [field userData "name"; field userData "email"] None ;;
     rs <- read_rows result ;;
     ret (index0 rs))
    (fun error => console_error "Error creating user:" error ;;; throw error)
    t.
Proof.
  intros Hu Hn. unfold Cart.create, try_catch. unfold bind at 1.
  rewrite read_prop_defined by done. unfold bind at 1.
  by rewrite read_prop_defined by done.
Qed.

Lemma cart_update_guarded userId userData t :
  userData <> JUndefined -> userData <> JNull ->
  Cart.update pool userId userData t =
  try_catch
    (result <- queryWithRetry pool
                 "UPDATE users SET name = $1, email = $2 WHERE id = $3 RETURNING *"
                 [field userData "name"; field userData "email"; userId] None ;;
     rs <- read_rows result ;;
     ret (index0 rs))
    (fun error => console_error "Error updating user:" error ;;; throw error)
    t.
Proof.
  intros Hu Hn. unfold Cart.update, try_catch. unfold bind at 1.
  rewrite read_prop_defined by done. unfold bind at 1.
  by rewrite read_prop_defined by done.
Qed.

End CartRepository.

(** X16: the earlier [findById] throws nothing but a new
    [Error('Database connection timeout')]: when it throws, the 3 attempts
    of the executor have failed, and the error of the third one was written
    to [console.error] and is not what the caller gets. *)
Theorem cart_findById_throws_timeout_only
    (pool : Pool) (userId : JsVal) (t t' : list Event) (e : JsVal) :
  Cart.findById pool userId t = (Throw e, t') ->
  let query := "SELECT * FROM users WHERE id = $1" in
  e = Cart.timeout_error
  /\ all_rejected pool t query [userId] 3
  /\ exists cause,
       attempt pool t query [userId] 2 = Rejected cause
       /\ t' = t ++ backoff_trace query [userId] 2
                 ++ [EvQuery query [userId];
                     EvLog "Error fetching user by ID:" cause].
Proof.
  intros Hrun query. unfold Cart.findById, try_catch, bind in Hrun.
  change (queryWithRetry pool "SELECT * FROM users WHERE id = $1" [userId] None)
    with (queryWithRetry pool query [userId] (Some 3)) in Hrun.
  destruct (queryWithRetry_run_cases pool query [userId] 3 t)
    as (k & Hk & Hrej & [(r & Hok & Hq)|(Hlast & cause & Hfail & Hq)]);
    [lia|..]; rewrite Hq in Hrun; simpl in Hrun; [discriminate|].
  assert (k = 2%nat) as -> by lia.
  unfold console_error, emit, throw in Hrun. injection Hrun as <- <-.
  split; [done|]. split.
  - intros j Hj. destruct (decide (j = 2%nat)) as [->|Hne].
    + by exists cause.
    + apply Hrej. lia.
  - exists cause. split; [done|]. by rewrite <- !app_assoc.
Qed.

(** X17: the earlier [create] has no guard.  On [undefined] or [null] it
    logs and throws the TypeError of reading [userData.name], without
    calling the pool; on any other value the first thing it does is send
    its INSERT with whatever the two fields are, [undefined] included. *)
Theorem cart_create_has_no_guard
    (pool : Pool) (userData : JsVal) (t : list Event) :
  (userData = JUndefined \/ userData = JNull ->
   Cart.create pool userData t =
   (Throw (type_error userData "name"),
    t ++ [EvLog "Error creating user:" (type_error userData "name")]))
  /\
  (userData <> JUndefined -> userData <> JNull ->
   exists c rest,
     Cart.create pool userData t =
     (c, t ++ EvQuery
                "INSERT INTO users (name, email) VALUES ($1, $2) RETURNING *"
                [field userData "name"; field userData "email"] :: rest)).
Proof.
  split.
  - intros H. unfold Cart.create, try_catch. unfold bind at 1.
    by rewrite read_prop_nullish.
  - intros Hu Hn. rewrite cart_create_guarded by done.
    apply (guarded_calls pool).
Qed.

(** X18: the earlier [update] always sends the same statement, which
    assigns both columns: on any value other than [undefined] and [null]
    its first action is that UPDATE with the parameters name, email, id,
    an absent field being passed as [undefined]; on [undefined] or [null]
    it logs and throws a TypeError without calling the pool. *)
Theorem cart_update_assigns_both_columns
    (pool : Pool) (userId userData : JsVal) (t : list Event) :
  (userData = JUndefined \/ userData = JNull ->
   Cart.update pool userId userData t =
   (Throw (type_error userData "name"),
    t ++ [EvLog "Error updating user:" (type_error userData "name")]))
  /\
  (userData <> JUndefined -> userData <> JNull ->
   exists c rest,
     Cart.update pool userId userData t =
     (c, t ++ EvQuery
                "UPDATE users SET name = $1, email = $2 WHERE id = $3 RETURNING *"
                [field userData "name"; field userData "email"; userId]
              :: rest)).
Proof.
  split.
  - intros H. unfold Cart.update, try_catch. unfold bind at 1.
    by rewrite read_prop_nullish.
  - intros Hu Hn. rewrite cart_update_guarded by done.
    apply (guarded_calls pool).
Qed.

(** ** Further runs on concrete pools and callbacks *)

Lemma flaky_pool_two_rejected row t query params :
  pool_calls t = 0%nat ->
  all_rejected (flaky_pool row) t query params 2.
Proof.
  intros Ht j Hj. unfold attempt, flaky_pool.
  rewrite pool_calls_app, pool_calls_backoff, Ht.
  destruct j as [|[|j]]; [by eexists..|lia].
Qed.

Lemma queryWithRetry_any_limit_witness :
  1 <= 5
  /\ exists k,
       Z.of_nat k < 5
       /\ all_rejected (flaky_pool alice) [] "SELECT 1" [] k
       /\ (queryWithRetry (flaky_pool alice) "SELECT 1" [] (Some 5) []).2 =
          [] ++ backoff_trace "SELECT 1" [] k ++ [EvQuery "SELECT 1" []]
       /\ ((exists r,
              attempt (flaky_pool alice) [] "SELECT 1" [] k = Resolved r
              /\ (queryWithRetry (flaky_pool alice) "SELECT 1" [] (Some 5) []).1
                 = Return (Some r))
           \/ (Z.of_nat k = 5 - 1
               /\ exists e,
                    attempt (flaky_pool alice) [] "SELECT 1" [] k = Rejected e
                    /\ (queryWithRetry (flaky_pool alice) "SELECT 1" []
                          (Some 5) []).1 = Throw e)).
Proof.
  split; [lia|].
  apply (queryWithRetry_any_limit (flaky_pool alice) "SELECT 1" [] [] 5). lia.
Defined.

Lemma queryWithRetry_resends_same_request_witness :
  exists calls : nat,
    queries (queryWithRetry down_pool "SELECT 1" [] (Some 2) []).2 =
    queries [] ++ replicate calls ("SELECT 1", [])
    /\ (1 <= calls)%nat
    /\ Z.of_nat calls <= 2.
Proof.
  destruct (queryWithRetry_resends_same_request down_pool "SELECT 1" [] [] 2)
    as (calls & Hq & Hle & Hpos & _).
  exists calls. split; [exact Hq|]. split; [apply Hpos; lia|lia].
Defined.

Lemma queryWithRetry_total_delay_witness :
  1 <= 3
  /\ all_rejected down_pool [] "SELECT 1" [] (Z.to_nat 3)
  /\ total_delay (queryWithRetry down_pool "SELECT 1" [] (Some 3) []).2 =
     total_delay [] + 500 * 3 * (3 - 1).
Proof.
  split; [lia|]. split; [apply down_pool_all_rejected|].
  apply (queryWithRetry_total_delay down_pool "SELECT 1" [] [] 3); [lia|].
  apply down_pool_all_rejected.
Defined.

Lemma repository_returns_first_success_witness :
  (2 < 3)%nat
  /\ findById (flaky_pool alice) (JNum 1) [] =
     (Return (js_or (index0 [alice]) JNull),
      [] ++ backoff_trace "SELECT * FROM users WHERE id = $1" [JNum 1] 2
         ++ [EvQuery "SELECT * FROM users WHERE id = $1" [JNum 1]])
  /\ findAll (flaky_pool alice) [] =
     (Return [alice],
      [] ++ backoff_trace "SELECT * FROM users" [] 2
         ++ [EvQuery "SELECT * FROM users" []]).
Proof.
  split; [lia|].
  destruct (repository_returns_first_success (flaky_pool alice) [] 2
              (mkResult [alice])) as (Hfind & Hall & _); [lia|].
  split.
  - apply Hfind; [by apply flaky_pool_two_rejected|reflexivity].
  - apply Hall; [by apply flaky_pool_two_rejected|reflexivity].
Defined.

Lemma findById_never_undefined_witness :
  (findById (flaky_pool alice) (JNum 1) []).1 = Return alice
  /\ alice <> JUndefined
  /\ (alice = JNull \/ truthy alice = true).
Proof.
  split; [reflexivity|].
  apply (findById_never_undefined (flaky_pool alice) (JNum 1) [] alice).
  reflexivity.
Defined.

Lemma create_guard_witness :
  create empty_store blank_name [] = (Throw create_error, [])
  /\ exists c rest,
       create empty_store alice [] =
       (c, [] ++ EvQuery
                   "INSERT INTO users (name, email) VALUES ($1, $2) RETURNING *"
                   [field alice "name"; field alice "email"] :: rest).
Proof.
  split.
  - apply (proj1 (create_guard empty_store blank_name [])).
    left. reflexivity.
  - apply (proj2 (create_guard empty_store alice [])); reflexivity.
Defined.

Lemma repository_bounded_work_witness :
  create_accepts alice = true
  /\ exists calls,
       (1 <= calls <= 3)%nat
       /\ queries (create down_pool alice []).2 =
          queries []
            ++ replicate calls
                 ("INSERT INTO users (name, email) VALUES ($1, $2) RETURNING *",
                  [field alice "name"; field alice "email"])
       /\ total_delay [] <= total_delay (create down_pool alice []).2
          <= total_delay [] + 3000.
Proof.
  split; [reflexivity|].
  destruct (repository_bounded_work down_pool []) as (_ & _ & Hcreate & _).
  apply Hcreate. reflexivity.
Defined.

Lemma update_set_clause_nonempty_witness :
  update_accepts only_name = true
  /\ exists c rest,
       update empty_store (JNum 7) only_name [] =
       (c, [] ++ EvQuery "UPDATE users SET name = $1 WHERE id = $2 RETURNING *"
                   [JStr "A"; JNum 7] :: rest).
Proof.
  split; [reflexivity|].
  apply (update_set_clause_nonempty empty_store (JNum 7) only_name []).
  reflexivity.
Defined.

Lemma update_statement_text_witness :
  update_accepts only_name = true
  /\ exists c ps rest,
       update empty_store (JNum 7) only_name [] =
       (c, EvQuery "UPDATE users SET name = $1 WHERE id = $2 RETURNING *" ps
             :: rest).
Proof.
  split; [reflexivity|].
  apply (update_statement_text empty_store (JNum 7) only_name []).
  reflexivity.
Defined.

Lemma retryWithBackoff_returns_first_success_witness :
  let fn := Cart.flaky Cart.rate_limit_error (JNum 7) in
  Z.of_nat 1 < 3
  /\ Cart.attempt fn [] 1 = Cart.Fulfilled (JNum 7)
  /\ Cart.retryWithBackoff fn (Some 3) [] =
     (Return (JNum 7),
      [Cart.FnCall; Cart.FnSleep (Cart.Millis 1000); Cart.FnCall]).
Proof.
  intros fn. split; [lia|]. split; [reflexivity|].
  apply (retryWithBackoff_returns_first_success fn 3 [] 1 (JNum 7));
    [lia| |reflexivity].
  intros j Hj. destruct j as [|j]; [|lia].
  exists Cart.rate_limit_error. split; reflexivity.
Defined.

Lemma retryWithBackoff_rethrows_other_errors_witness :
  let e := JError "Error" "Not found" in
  Z.of_nat 0 < 3
  /\ Cart.message_includes e "rate limit" = inr false
  /\ Cart.retryWithBackoff (Cart.failing e) (Some 3) [] =
     (Throw e, [Cart.FnCall]).
Proof.
  intros e. split; [lia|]. split; [reflexivity|].
  apply (retryWithBackoff_rethrows_other_errors (Cart.failing e) 3 [] 0 e);
    [lia| |reflexivity..].
  intros j Hj. lia.
Defined.

Lemma cart_failing_rate_limited t n :
  forall j, (j < n)%nat ->
    Cart.rate_limited (Cart.attempt (Cart.failing Cart.rate_limit_error) t j).
Proof. intros j _. exists Cart.rate_limit_error. split; reflexivity. Qed.

Lemma retryWithBackoff_exhausted_witness :
  let fn := Cart.failing Cart.rate_limit_error in
  Cart.retryWithBackoff fn (Some 3) [] =
  (Throw Cart.rate_limit_error,
   [Cart.FnCall; Cart.FnSleep (Cart.Millis 1000);
    Cart.FnCall; Cart.FnSleep (Cart.Millis 2000);
    Cart.FnCall])
  /\ foldr Z.add 0 (map (fun i => 2 ^ Z.of_nat i * 1000) (seq 0 2)) =
     1000 * (2 ^ (3 - 1) - 1).
Proof.
  intros fn.
  destruct (retryWithBackoff_exhausted fn 3 [] 2 Cart.rate_limit_error)
    as (Hrun & _ & _ & Hfin & _);
    [reflexivity|apply cart_failing_rate_limited|reflexivity|].
  split; [exact Hrun|]. apply Hfin. lia.
Defined.

Lemma retryWithBackoff_masks_error_without_message_witness :
  Z.of_nat 0 < 3
  /\ Cart.message_includes JNull "rate limit" =
     inl (type_error JNull "message")
  /\ Cart.retryWithBackoff (Cart.failing JNull) (Some 3) [] =
     (Throw (type_error JNull "message"), [Cart.FnCall]).
Proof.
  split; [lia|]. split; [reflexivity|].
  apply (retryWithBackoff_masks_error_without_message
           (Cart.failing JNull) 3 [] 0 JNull (type_error JNull "message"));
    [lia| |reflexivity..].
  intros j Hj. lia.
Defined.

Lemma retryWithBackoff_nonpositive_limit_witness :
  0 <= 0
  /\ Cart.retryWithBackoff (Cart.failing Cart.rate_limit_error) (Some 0) [] =
     (Return JUndefined, []).
Proof.
  split; [lia|].
  apply (retryWithBackoff_nonpositive_limit
           (Cart.failing Cart.rate_limit_error) 0 []). lia.
Defined.

Lemma cart_findById_throws_timeout_only_witness :
  let query := "SELECT * FROM users WHERE id = $1" in
  let t' := [EvQuery query [JNum 1]; EvSleep 1000;
             EvQuery query [JNum 1]; EvSleep 2000;
             EvQuery query [JNum 1];
             EvLog "Error fetching user by ID:" (JError "Error" "timeout 2")] in
  Cart.findById down_pool (JNum 1) [] = (Throw Cart.timeout_error, t')
  /\ Cart.timeout_error = Cart.timeout_error
  /\ all_rejected down_pool [] query [JNum 1] 3
  /\ exists cause,
       attempt down_pool [] query [JNum 1] 2 = Rejected cause
       /\ t' = [] ++ backoff_trace query [JNum 1] 2
                  ++ [EvQuery query [JNum 1];
                      EvLog "Error fetching user by ID:" cause].
Proof.
  intros query t'. split; [reflexivity|].
  apply (cart_findById_throws_timeout_only down_pool (JNum 1) [] t'
           Cart.timeout_error).
  reflexivity.
Defined.

Lemma cart_create_has_no_guard_witness :
  Cart.create empty_store JNull [] =
  (Throw (type_error JNull "name"),
   [] ++ [EvLog "Error creating user:" (type_error JNull "name")])
  /\ exists c rest,
       Cart.create empty_store only_name [] =
       (c, [] ++ EvQuery
                   "INSERT INTO users (name, email) VALUES ($1, $2) RETURNING *"
                   [field only_name "name"; field only_name "email"] :: rest).
Proof.
  split.
  - apply (proj1 (cart_create_has_no_guard empty_store JNull [])).
    right. reflexivity.
  - apply (proj2 (cart_create_has_no_guard empty_store only_name []));
      discriminate.
Defined.

Lemma cart_update_assigns_both_columns_witness :
  Cart.update empty_store (JNum 7) JUndefined [] =
  (Throw (type_error JUndefined "name"),
   [] ++ [EvLog "Error updating user:" (type_error JUndefined "name")])
  /\ exists c rest,
       Cart.update empty_store (JNum 7) only_name [] =
       (c, [] ++ EvQuery
                   "UPDATE users SET name = $1, email = $2 WHERE id = $3 RETURNING *"
                   [field only_name "name"; field only_name "email"; JNum 7]
                 :: rest).
Proof.
  split.
  - apply (proj1 (cart_update_assigns_both_columns
                    empty_store (JNum 7) JUndefined [])).
    left. reflexivity.
  - apply (proj2 (cart_update_assigns_both_columns
                    empty_store (JNum 7) only_name [])); discriminate.
Defined.
